(** * Scribe.dev UI: thread list, content card and new-thread form

    A shallow embedding of the logic of three React components:
    - [ThreadsList]: the memoised [filteredThreads] and [threadStats];
    - [ContentItem]: the [handleSave] and [handleDelete] handlers;
    - [EnhancedNewThreadModal]: the form state and [handleSubmit].

    JavaScript strings are sequences of UTF-16 code units, arrays are
    objects in a store (so that aliasing and in-place updates are visible),
    component state is a record updated by the [useState] setters. *)

From Stdlib Require Import ZArith NArith Lia Ascii String Sorted.
From stdpp Require Import base option list gmap.

Local Open Scope Z_scope.

(** ** JavaScript strings *)

Module JS.

(** A string is its sequence of UTF-16 code units. *)
Definition str := list N.

(** An ASCII literal of the source, as code units. *)
Definition lit (s : string) : str :=
  List.map N_of_ascii (list_ascii_of_string s).

(** [WhiteSpace] and [LineTerminator] of ECMAScript: the code units that
    [String.prototype.trim] strips. All of them are in the BMP. *)
Definition isWhiteSpace (c : N) : bool :=
  ((c =? 0x0009) || (c =? 0x000A) || (c =? 0x000B) || (c =? 0x000C)
   || (c =? 0x000D) || (c =? 0x0020) || (c =? 0x00A0) || (c =? 0x1680)
   || ((0x2000 <=? c) && (c <=? 0x200A))
   || (c =? 0x2028) || (c =? 0x2029) || (c =? 0x202F) || (c =? 0x205F)
   || (c =? 0x3000) || (c =? 0xFEFF))%N.

Fixpoint trimStart (s : str) : str :=
  match s with
  | c :: s' => if isWhiteSpace c then trimStart s' else s
  | [] => []
  end.

Definition trimEnd (s : str) : str := rev (trimStart (rev s)).

Definition trim (s : str) : str := trimEnd (trimStart s).

(** Truthiness of a string: every string but the empty one. *)
Definition truthy (s : str) : bool :=
  match s with [] => false | _ => true end.

Fixpoint startsWith (s q : str) : bool :=
  match q, s with
  | [], _ => true
  | _ :: _, [] => false
  | d :: q', c :: s' => (c =? d)%N && startsWith s' q'
  end.

(** [s.includes(q)]: [q] occurs in [s] as a contiguous run. *)
Fixpoint includes (s q : str) : bool :=
  startsWith s q ||
  match s with
  | [] => false
  | _ :: s' => includes s' q
  end.

(** [s.slice(0, n)]. *)
Definition slice0 (s : str) (n : nat) : str := take n s.

(** [s.length]. *)
Definition length (s : str) : nat := List.length s.

(** Lower-casing of the ASCII range; the Unicode case tables of
    [String.prototype.toLowerCase] are a parameter of the development,
    and this function instantiates it in the examples. *)
Definition asciiLower (s : str) : str :=
  List.map (fun c => if ((65 <=? c) && (c <=? 90))%N then (c + 32)%N else c) s.

(** The numbers the components compute with: integers (time values in
    milliseconds, counts) and [NaN], which [new Date(x).getTime()] gives for
    an invalid or missing date. *)
Inductive Num := NaN | int (z : Z).

#[global] Instance Num_eq_dec : EqDecision Num.
Proof. solve_decision. Defined.

(** [a - b]: [NaN] as soon as one side is. Of a difference of integers
    only the sign is ever looked at. *)
Definition sub (a b : Num) : Num :=
  match a, b with
  | int x, int y => int (x - y)
  | _, _ => NaN
  end.

(** [a >= b]: never true of [NaN]. *)
Definition ge (a b : Num) : Prop :=
  match a, b with
  | int x, int y => y <= x
  | _, _ => False
  end.

(** [SortCompare] of ECMAScript on the result [v] of a comparator: a [NaN]
    counts as [+0], that is as a tie. *)
Definition SortCompare {A} (comparefn : A -> A -> Num) (x y : A) : Z :=
  match comparefn x y with
  | NaN => 0
  | int v => v
  end.

(** The integer a number stands for; used on numbers known not to be
    [NaN]. *)
Definition toZ (a : Num) : Z :=
  match a with
  | int z => z
  | NaN => 0
  end.

(** Whether a string begins, or ends, with a code unit [trim] strips. *)
Definition startsWithWs (s : str) : bool :=
  match s with
  | c :: _ => isWhiteSpace c
  | [] => false
  end.

Definition endsWithWs (s : str) : bool := startsWithWs (rev s).

(** [[...new Set(l)]]: the first occurrence of each element, in order. *)
Definition uniq {A} `{EqDecision A} (l : list A) : list A :=
  fold_left (fun acc x => if bool_decide (x ∈ acc) then acc else acc ++ [x]) l [].

(** [s.split(/\s+/)]: the pieces of [s] between maximal runs of white
    space (the class [\s] is the set [trim] strips). A run at either end
    leaves an empty piece there; the empty string gives one empty piece.
    [inSep] tells that the scan is inside a run, [cur] is the piece read so
    far. *)
Fixpoint split_ws (inSep : bool) (cur : str) (s : str) : list str :=
  match s with
  | [] => [cur]
  | c :: s' =>
      if isWhiteSpace c then
        if inSep then split_ws true cur s'
        else cur :: split_ws true [] s'
      else split_ws false (cur ++ [c]) s'
  end.

Definition splitWhiteSpace (s : str) : list str := split_ws false [] s.

(** The number of non-empty pieces among [pieces]. *)
Definition wordsOf (pieces : list str) : nat :=
  List.length (List.filter (fun word => (0 <? length word)%nat) pieces).

End JS.

(** ** Arrays in a store

    A JavaScript array is an object: two variables may hold the same array,
    and [Array.prototype.sort] reorders it in place. The store maps
    references to the current contents of each array. *)

Module Store.
Section Store.
Context {A : Type}.

Definition ref := nat.

Definition M (R : Type) : Type := gmap nat (list A) -> option (R * gmap nat (list A)).

Definition ret {R} (x : R) : M R := fun h => Some (x, h).

Definition bind {R S} (m : M R) (k : R -> M S) : M S :=
  fun h => match m h with
           | Some (x, h') => k x h'
           | None => None
           end.

(** Contents of an array; no result for a dangling reference. *)
Definition read (r : ref) : M (list A) :=
  fun h => match h !! r with
           | Some l => Some (l, h)
           | None => None
           end.

(** A new array object, at a reference not in use. *)
Definition alloc (l : list A) : M ref :=
  fun h => let r := fresh (dom h) in Some (r, <[r := l]> h).

Definition write (r : ref) (l : list A) : M unit :=
  fun h => Some (tt, <[r := l]> h).

(** [arr.filter(p)]: a new array; [arr] itself is not touched. *)
Definition Array_filter (p : A -> bool) (arr : ref) : M ref :=
  bind (read arr) (fun l => alloc (List.filter p l)).

(** Stable insertion of [x] into a list ordered by [compareFn]:
    [x] goes before the first [y] with [compareFn x y <= 0]. *)
Fixpoint insert_by (compareFn : A -> A -> Z) (x : A) (l : list A) : list A :=
  match l with
  | [] => [x]
  | y :: l' =>
      if compareFn x y <=? 0 then x :: y :: l'
      else y :: insert_by compareFn x l'
  end.

(** The order [Array.prototype.sort] leaves: ECMAScript requires the sort
    to be stable, and only the sign of [compareFn] is looked at. Where the
    comparator is not a consistent one (it answers [NaN], a tie, for some
    pairs) the standard leaves the order to the implementation; the general
    statements below about the order are made for lists on which it is
    consistent. *)
Fixpoint sorted_by (compareFn : A -> A -> Z) (l : list A) : list A :=
  match l with
  | [] => []
  | x :: l' => insert_by compareFn x (sorted_by compareFn l')
  end.

(** [arr.sort(compareFn)]: reorders [arr] in place and returns it. *)
Definition Array_sort (compareFn : A -> A -> JS.Num) (arr : ref) : M ref :=
  bind (read arr) (fun l =>
  bind (write arr (sorted_by (JS.SortCompare compareFn) l)) (fun _ =>
  ret arr)).

(** What a stage of a pipeline does to the store: [f] leaves an array
    holding [g l]; every array of the old store is still there with its
    contents; and the result is either a new array ([copied = true]) or
    the very array it was given, in an unchanged store. *)
Definition stage_spec (f : ref -> M ref)
    (g : list A -> list A) (copied : bool) : Prop :=
  forall r h l, h !! r = Some l ->
    exists r' h', f r h = Some (r', h')
      /\ h' !! r' = Some (g l)
      /\ h ⊆ h'
      /\ if copied then h !! r' = None else r' = r /\ h' = h.

End Store.
Arguments M : clear implicits.
End Store.

Notation "'let*' x ':=' m 'in' k" := (Store.bind m (fun x => k))
  (at level 10, x name, m at level 100, k at level 200).

(** ** ThreadsList *)

Module ThreadsList.

Inductive ThreadType := classroom | generic.

#[global] Instance ThreadType_eq_dec : EqDecision ThreadType.
Proof. solve_decision. Defined.

(** A thread record as the component reads it. [createdAt] and
    [updatedAt] are given by the number [new Date(x).getTime()] makes of
    them: the time value in milliseconds, [NaN] for an invalid or missing
    date. [unitId] and [category] are [None] where the property is
    absent. *)
Record Thread := {
  id : JS.str;
  title : JS.str;
  content : JS.str;
  authorId : JS.str;
  authorName : JS.str;
  tags : list JS.str;
  createdAt : JS.Num;
  updatedAt : JS.Num;
  repliesCount : Z;
  isResolved : bool;
  threadType : ThreadType;
  unitId : option JS.str;
  category : option JS.str
}.

Inductive SortKey := recent | replies | created.

(** The five [useState] cells of the list. [selectedThreadType] is
    ["all" | "classroom" | "generic"]: [None] stands for ["all"]. *)
Record Query := {
  searchQuery : JS.str;
  selectedThreadType : option ThreadType;
  selectedUnit : JS.str;
  selectedCategory : JS.str;
  sortBy : SortKey
}.

Definition all : JS.str := JS.lit "all".

Section Engine.
(** [String.prototype.toLowerCase]. *)
Variable toLowerCase : JS.str -> JS.str.

Definition matchesSearch (query : JS.str) (thread : Thread) : bool :=
  JS.includes (toLowerCase (title thread)) query
  || JS.includes (toLowerCase (content thread)) query
  || JS.includes (toLowerCase (authorName thread)) query
  || existsb (fun tag => JS.includes (toLowerCase tag) query) (tags thread).

Definition matchesType (sel : ThreadType) (thread : Thread) : bool :=
  bool_decide (threadType thread = sel).

Definition matchesUnit (sel : JS.str) (thread : Thread) : bool :=
  bool_decide (threadType thread = classroom)
  && bool_decide (unitId thread = Some sel).

Definition matchesCategory (sel : JS.str) (thread : Thread) : bool :=
  bool_decide (threadType thread = generic)
  && bool_decide (category thread = Some sel).

Definition compareFn (key : SortKey) (a b : Thread) : JS.Num :=
  match key with
  | recent => JS.sub (updatedAt b) (updatedAt a)
  | replies => JS.sub (JS.int (repliesCount b)) (JS.int (repliesCount a))
  | created => JS.sub (createdAt b) (createdAt a)
  end.

(** The four filter stages and the sort, each on the array the previous
    one left in [filtered]. *)
Definition searchStage (q : Query) (filtered : Store.ref) : Store.M Thread Store.ref :=
  if JS.truthy (JS.trim (searchQuery q)) then
    let query := toLowerCase (searchQuery q) in
    Store.Array_filter (matchesSearch query) filtered
  else Store.ret filtered.

Definition typeStage (q : Query) (filtered : Store.ref) : Store.M Thread Store.ref :=
  match selectedThreadType q with
  | Some sel => Store.Array_filter (matchesType sel) filtered
  | None => Store.ret filtered
  end.

Definition unitStage (q : Query) (filtered : Store.ref) : Store.M Thread Store.ref :=
  if bool_decide (selectedUnit q <> all) then
    Store.Array_filter (matchesUnit (selectedUnit q)) filtered
  else Store.ret filtered.

Definition categoryStage (q : Query) (filtered : Store.ref) : Store.M Thread Store.ref :=
  if bool_decide (selectedCategory q <> all) then
    Store.Array_filter (matchesCategory (selectedCategory q)) filtered
  else Store.ret filtered.

Definition filteredThreads (q : Query) (threads : Store.ref) : Store.M Thread Store.ref :=
  let filtered := threads in
  let* filtered := searchStage q filtered in
  let* filtered := typeStage q filtered in
  let* filtered := unitStage q filtered in
  let* filtered := categoryStage q filtered in
  let* _ := Store.Array_sort (compareFn (sortBy q)) filtered in
  Store.ret filtered.


(** The four filter stages, as one stage. *)
Definition filterStages (q : Query) (r : Store.ref) : Store.M Thread Store.ref :=
  Store.bind (Store.bind (Store.bind (searchStage q r)
    (typeStage q)) (unitStage q)) (categoryStage q).

(** The contents of the array each stage leaves in [filtered], from the
    contents [l] of the array it was given. *)
Definition searchList (q : Query) (l : list Thread) : list Thread :=
  if JS.truthy (JS.trim (searchQuery q)) then
    List.filter (matchesSearch (toLowerCase (searchQuery q))) l
  else l.

Definition typeList (q : Query) (l : list Thread) : list Thread :=
  match selectedThreadType q with
  | Some sel => List.filter (matchesType sel) l
  | None => l
  end.

Definition unitList (q : Query) (l : list Thread) : list Thread :=
  if bool_decide (selectedUnit q <> all) then
    List.filter (matchesUnit (selectedUnit q)) l
  else l.

Definition categoryList (q : Query) (l : list Thread) : list Thread :=
  if bool_decide (selectedCategory q <> all) then
    List.filter (matchesCategory (selectedCategory q)) l
  else l.

Definition filteredList (q : Query) (l : list Thread) : list Thread :=
  categoryList q (unitList q (typeList q (searchList q l))).

(** Some stage of [filteredThreads] calls [filter]. *)
Definition anyFilter (q : Query) : bool :=
  JS.truthy (JS.trim (searchQuery q))
  || bool_decide (selectedThreadType q <> None)
  || bool_decide (selectedUnit q <> all)
  || bool_decide (selectedCategory q <> all).

End Engine.

(** The object [threadStats] returns. *)
Module Stats.
Record t := {
  total : Z;
  resolved : Z;
  open : Z;
  classroom : Z;
  generic : Z
}.
End Stats.


(** The same of numbers that may be [NaN], by [>=]. *)
Definition nonIncreasingNum (l : list JS.Num) : Prop :=
  forall (i j : nat) (x y : JS.Num),
    (i < j)%nat -> l !! i = Some x -> l !! j = Some y -> JS.ge x y.

(** The number of elements of [l] that satisfy [p]. *)
Fixpoint countIf {A} (p : A -> bool) (l : list A) : Z :=
  match l with
  | [] => 0
  | x :: l' => (if p x then 1 else 0) + countIf p l'
  end.

Definition threadStats (threads : list Thread) : Stats.t :=
  let total := Z.of_nat (List.length threads) in
  let resolved := Z.of_nat (List.length (List.filter isResolved threads)) in
  let open := total - resolved in
  let classroom_ := Z.of_nat (List.length
    (List.filter (fun t => bool_decide (threadType t = classroom)) threads)) in
  let generic_ := Z.of_nat (List.length
    (List.filter (fun t => bool_decide (threadType t = generic)) threads)) in
  {| Stats.total := total; Stats.resolved := resolved; Stats.open := open;
     Stats.classroom := classroom_; Stats.generic := generic_ |}.

(** *** The rest of the list view *)

Section View.
Variable toLowerCase : JS.str -> JS.str.

(** A thread passes every filter that is switched on. *)
Definition passes (q : Query) (thread : Thread) : bool :=
  (negb (JS.truthy (JS.trim (searchQuery q)))
   || matchesSearch toLowerCase (toLowerCase (searchQuery q)) thread)
  && match selectedThreadType q with
     | Some sel => matchesType sel thread
     | None => true
     end
  && (negb (bool_decide (selectedUnit q <> all))
      || matchesUnit (selectedUnit q) thread)
  && (negb (bool_decide (selectedCategory q <> all))
      || matchesCategory (selectedCategory q) thread).

End View.

(** The number [compareFn] compares two threads by. *)
Definition sortKeyOf (key : SortKey) (thread : Thread) : JS.Num :=
  match key with
  | recent => updatedAt thread
  | replies => JS.int (repliesCount thread)
  | created => createdAt thread
  end.

(** [availableCategories]: the categories of the generic threads, each
    once. *)
Definition availableCategories (threads : list Thread) : list (option JS.str) :=
  let categories :=
    List.map category
      (List.filter (fun thread => bool_decide (threadType thread = generic)) threads) in
  JS.uniq categories.

(** The "Clear all" button: the four setters it calls. *)
Definition clearAll (q : Query) : Query :=
  {| searchQuery := []; selectedThreadType := None;
     selectedUnit := all; selectedCategory := all; sortBy := sortBy q |}.

(** The "Active filters" bar is rendered ([showFilters] is the prop of
    that name). *)
Definition activeFiltersShown (showFilters : bool) (q : Query) : bool :=
  showFilters
  && (JS.truthy (searchQuery q)
      || bool_decide (selectedThreadType q <> None)
      || bool_decide (selectedUnit q <> all)
      || bool_decide (selectedCategory q <> all)).



End ThreadsList.

(** ** ContentItem *)

Module ContentItem.

Inductive ContentType := NOTE | LINK | VIDEO | DOCUMENT.

#[global] Instance ContentType_eq_dec : EqDecision ContentType.
Proof. solve_decision. Defined.

(** The [content] prop. *)
Record EducationalContent := {
  id : JS.str;
  type : ContentType;
  content : JS.str;
  version : Z;
  createdAt : Z
}.

(** The [useState] cells of the card. *)
Record State := {
  isExpanded : bool;
  isDeleting : bool;
  showDeleteConfirm : bool;
  isDeleted : bool;
  deleteSuccess : bool;
  isEditing : bool;
  editedContent : JS.str;
  isSaving : bool;
  saveSuccess : bool;
  editError : option string
}.

(** What a timer callback of the card does when it fires. *)
Inductive TimerAction :=
| clearSaveSuccess
| onRefresh.

(** What a handler does to the outside world, in order. *)
Inductive Effect :=
| updateContent (id : JS.str) (content : JS.str) (type : ContentType)
| deleteContent (id : JS.str)
| console_error (msg : string)
| setTimeout (callback : list TimerAction) (ms : Z).

(** How the promise of an API call settles. *)
Inductive Settled := fulfilled | rejected.

Inductive Completion := normal | thrown.

(** A handler runs on the state of the card, calls setters, performs
    effects, and completes normally or by a throw. An awaited call is run
    to its settlement: the continuation of the handlers below only calls
    setters, which act on whatever the state is by then. *)
Definition Handler := State -> State * list Effect * Completion.

Definition skip : Handler := fun st => (st, [], normal).

Definition seq (h1 h2 : Handler) : Handler :=
  fun st =>
    match h1 st with
    | (st1, e1, normal) =>
        let '(st2, e2, c2) := h2 st1 in (st2, e1 ++ e2, c2)
    | (st1, e1, thrown) => (st1, e1, thrown)
    end.

Definition perform (e : Effect) : Handler := fun st => (st, [e], normal).

(** [await call]: the call is issued; a rejected promise throws. *)
Definition await (call : Effect) (api : Settled) : Handler :=
  fun st => (st, [call], match api with fulfilled => normal | rejected => thrown end).

Definition try_catch_finally (body handler final : Handler) : Handler :=
  fun st =>
    let '(st1, e1, c1) := body st in
    let '(st2, e2, c2) :=
      match c1 with
      | normal => (st1, [], normal)
      | thrown => handler st1
      end in
    let '(st3, e3, c3) := final st2 in
    (st3, e1 ++ e2 ++ e3, match c3 with thrown => thrown | normal => c2 end).

Definition try_catch (body handler : Handler) : Handler :=
  try_catch_finally body handler skip.

Definition withIsDeleting (b : bool) (st : State) : State :=
  {| isExpanded := isExpanded st; isDeleting := b;
      showDeleteConfirm := showDeleteConfirm st; isDeleted := isDeleted st;
      deleteSuccess := deleteSuccess st; isEditing := isEditing st;
      editedContent := editedContent st; isSaving := isSaving st;
      saveSuccess := saveSuccess st; editError := editError st |}.

Definition withShowDeleteConfirm (b : bool) (st : State) : State :=
  {| isExpanded := isExpanded st; isDeleting := isDeleting st;
      showDeleteConfirm := b; isDeleted := isDeleted st;
      deleteSuccess := deleteSuccess st; isEditing := isEditing st;
      editedContent := editedContent st; isSaving := isSaving st;
      saveSuccess := saveSuccess st; editError := editError st |}.

Definition withIsDeleted (b : bool) (st : State) : State :=
  {| isExpanded := isExpanded st; isDeleting := isDeleting st;
      showDeleteConfirm := showDeleteConfirm st; isDeleted := b;
      deleteSuccess := deleteSuccess st; isEditing := isEditing st;
      editedContent := editedContent st; isSaving := isSaving st;
      saveSuccess := saveSuccess st; editError := editError st |}.

Definition withDeleteSuccess (b : bool) (st : State) : State :=
  {| isExpanded := isExpanded st; isDeleting := isDeleting st;
      showDeleteConfirm := showDeleteConfirm st; isDeleted := isDeleted st;
      deleteSuccess := b; isEditing := isEditing st;
      editedContent := editedContent st; isSaving := isSaving st;
      saveSuccess := saveSuccess st; editError := editError st |}.

Definition withIsEditing (b : bool) (st : State) : State :=
  {| isExpanded := isExpanded st; isDeleting := isDeleting st;
      showDeleteConfirm := showDeleteConfirm st; isDeleted := isDeleted st;
      deleteSuccess := deleteSuccess st; isEditing := b;
      editedContent := editedContent st; isSaving := isSaving st;
      saveSuccess := saveSuccess st; editError := editError st |}.

Definition withEditedContent (s : JS.str) (st : State) : State :=
  {| isExpanded := isExpanded st; isDeleting := isDeleting st;
      showDeleteConfirm := showDeleteConfirm st; isDeleted := isDeleted st;
      deleteSuccess := deleteSuccess st; isEditing := isEditing st;
      editedContent := s; isSaving := isSaving st;
      saveSuccess := saveSuccess st; editError := editError st |}.

Definition withIsSaving (b : bool) (st : State) : State :=
  {| isExpanded := isExpanded st; isDeleting := isDeleting st;
      showDeleteConfirm := showDeleteConfirm st; isDeleted := isDeleted st;
      deleteSuccess := deleteSuccess st; isEditing := isEditing st;
      editedContent := editedContent st; isSaving := b;
      saveSuccess := saveSuccess st; editError := editError st |}.

Definition withSaveSuccess (b : bool) (st : State) : State :=
  {| isExpanded := isExpanded st; isDeleting := isDeleting st;
      showDeleteConfirm := showDeleteConfirm st; isDeleted := isDeleted st;
      deleteSuccess := deleteSuccess st; isEditing := isEditing st;
      editedContent := editedContent st; isSaving := isSaving st;
      saveSuccess := b; editError := editError st |}.

Definition withEditError (e : option string) (st : State) : State :=
  {| isExpanded := isExpanded st; isDeleting := isDeleting st;
      showDeleteConfirm := showDeleteConfirm st; isDeleted := isDeleted st;
      deleteSuccess := deleteSuccess st; isEditing := isEditing st;
      editedContent := editedContent st; isSaving := isSaving st;
      saveSuccess := saveSuccess st; editError := e |}.

(** A [useState] setter, as a handler step. *)
Definition set (f : State -> State) : Handler := fun st => (f st, [], normal).

Definition setIsDeleting (b : bool) : Handler := set (withIsDeleting b).
Definition setShowDeleteConfirm (b : bool) : Handler := set (withShowDeleteConfirm b).
Definition setIsDeleted (b : bool) : Handler := set (withIsDeleted b).
Definition setDeleteSuccess (b : bool) : Handler := set (withDeleteSuccess b).
Definition setIsEditing (b : bool) : Handler := set (withIsEditing b).
Definition setEditedContent (s : JS.str) : Handler := set (withEditedContent s).
Definition setIsSaving (b : bool) : Handler := set (withIsSaving b).
Definition setSaveSuccess (b : bool) : Handler := set (withSaveSuccess b).
Definition setEditError (e : option string) : Handler := set (withEditError e).

Declare Scope handler_scope.
Delimit Scope handler_scope with handler.
Bind Scope handler_scope with Handler.
Notation "h1 ;; h2" := (seq h1 h2)
  (at level 100, h2 at level 200, right associativity) : handler_scope.

Definition canEdit (content : EducationalContent) : bool :=
  bool_decide (type content ∈ [NOTE; LINK; VIDEO]).

Definition handleEdit (content : EducationalContent) : Handler :=
  (setIsEditing true ;;
   setEditedContent (ContentItem.content content) ;;
   setEditError None ;;
   setSaveSuccess false)%handler.

Definition handleCancelEdit (content : EducationalContent) : Handler :=
  (setIsEditing false ;;
   setEditedContent (ContentItem.content content) ;;
   setEditError None)%handler.

Definition handleCancelDelete : Handler := setShowDeleteConfirm false.

Section Handlers.
(** [validURL s]: [new URL(s)] does not throw. *)
Variable validURL : JS.str -> bool.
(** How the backend answers the call of this run. *)
Variable api : Settled.

Definition handleSave (content : EducationalContent) : Handler :=
  fun st =>
    let editedContent := editedContent st in
    if negb (JS.truthy (JS.trim editedContent)) then
      setEditError (Some "Content cannot be empty"%string) st
    else if (bool_decide (type content = LINK)
             || bool_decide (type content = VIDEO))
            && JS.truthy (JS.trim editedContent)
            && negb (validURL (JS.trim editedContent)) then
      setEditError (Some "Please enter a valid URL"%string) st
    else
      (setIsSaving true ;;
       setEditError None ;;
       try_catch_finally
         (await (updateContent (id content) (JS.trim editedContent)
                   (type content)) api ;;
          setSaveSuccess true ;;
          setIsEditing false ;;
          perform (setTimeout [clearSaveSuccess; onRefresh] 1500))
         (perform (console_error "Failed to update content:") ;;
          setEditError (Some "Failed to save changes. Please try again."%string))
         (setIsSaving false))%handler st.

Definition handleDelete (content : EducationalContent) : Handler :=
  (setIsDeleting true ;;
   try_catch
     (await (deleteContent (id content)) api ;;
      setDeleteSuccess true ;;
      setIsDeleted true ;;
      perform (setTimeout [onRefresh] 500))
     (perform (console_error "Failed to delete content:") ;;
      setIsDeleting false ;;
      setShowDeleteConfirm false))%handler.

End Handlers.

(** The API calls among the effects of a run. *)
Definition isApiCall (e : Effect) : bool :=
  match e with
  | updateContent _ _ _ | deleteContent _ => true
  | _ => false
  end.

(** The card shows an error message: the only one it renders is
    [editError]. *)
Definition errorShown (st : State) : Prop := editError st <> None.

(** Two states agree on every cell but the error indication. *)
Definition sameButError (st st' : State) : Prop :=
  isExpanded st' = isExpanded st /\ isDeleting st' = isDeleting st
  /\ showDeleteConfirm st' = showDeleteConfirm st
  /\ isDeleted st' = isDeleted st /\ deleteSuccess st' = deleteSuccess st
  /\ isEditing st' = isEditing st /\ editedContent st' = editedContent st
  /\ isSaving st' = isSaving st /\ saveSuccess st' = saveSuccess st.

(** What is asked of a handler whose API call failed, on the run from
    [st]: the failure is caught, an error message is shown, and nothing
    but the error indication differs from [st]. *)
Definition failureContract (run : State * list Effect * Completion)
    (st : State) : Prop :=
  let '(st', _, c) := run in
  c = normal /\ errorShown st' /\ sameButError st st'.

(** The user types into the edit form: each change calls
    [setEditedContent] with the new value of the field. *)
Definition typing (values : list JS.str) : Handler :=
  fold_right (fun value rest => seq (setEditedContent value) rest) skip values.

(** The click on the header of the card. *)
Definition withIsExpanded (b : bool) (st : State) : State :=
  {| isExpanded := b; isDeleting := isDeleting st;
     showDeleteConfirm := showDeleteConfirm st; isDeleted := isDeleted st;
     deleteSuccess := deleteSuccess st; isEditing := isEditing st;
     editedContent := editedContent st; isSaving := isSaving st;
     saveSuccess := saveSuccess st; editError := editError st |}.

Definition setIsExpanded (b : bool) : Handler := set (withIsExpanded b).

Definition headerClick : Handler :=
  fun st =>
    if negb (isDeleting st) && negb (isEditing st)
    then setIsExpanded (negb (isExpanded st)) st
    else skip st.

(** The [updateContent] calls among the effects of a run, as
    (id, content, type). *)
Definition updateCalls (es : list Effect) : list (JS.str * JS.str * ContentType) :=
  omap (fun e => match e with
                 | updateContent i c t => Some (i, c, t)
                 | _ => None
                 end) es.

End ContentItem.

(** ** EnhancedNewThreadModal *)

Module NewThreadModal.

Inductive ThreadType := classroom | generic.
Inductive Visibility := public | restricted.

#[global] Instance ThreadType_eq_dec : EqDecision ThreadType.
Proof. solve_decision. Defined.
#[global] Instance Visibility_eq_dec : EqDecision Visibility.
Proof. solve_decision. Defined.

Record Unit_ := { unit_id : JS.str; unit_name : JS.str }.

Record Props := {
  classroomId : option JS.str;
  classroomName : option JS.str;
  units : list Unit_;
  threadType : ThreadType
}.

(** The [useState] cells of the form. *)
Record State := {
  title : JS.str;
  content : JS.str;
  selectedUnitId : JS.str;
  selectedCategory : JS.str;
  visibility : Visibility;
  tags : list JS.str;
  currentTag : JS.str;
  isGeneratingAiSuggestion : bool;
  showPreview : bool
}.

Definition initial : State :=
  {| title := []; content := []; selectedUnitId := [];
     selectedCategory := []; visibility := public; tags := [];
     currentTag := []; isGeneratingAiSuggestion := false;
     showPreview := false |}.

(** The object handed to [onSubmit]. *)
Module ThreadData.
Record base := {
  title : JS.str;
  content : JS.str;
  authorId : JS.str;
  authorName : JS.str;
  tags : list JS.str
}.
Inductive t :=
| classroomThread (b : base) (classroomId : option JS.str)
    (classroomName unitId unitName : JS.str)
| genericThread (b : base) (category : JS.str) (visibility : Visibility)
    (allowedRoles : option (list JS.str)).

Definition baseOf (d : t) : base :=
  match d with
  | classroomThread b _ _ _ _ => b
  | genericThread b _ _ _ => b
  end.
End ThreadData.

(** The invariant of the data model on a payload: a classroom thread
    carries a unit reference, a generic thread a category. *)
Definition wellFormed (d : ThreadData.t) : Prop :=
  match d with
  | ThreadData.classroomThread _ _ _ unitId _ => unitId <> []
  | ThreadData.genericThread _ category _ _ => category <> []
  end.

Definition payloadType (d : ThreadData.t) : ThreadType :=
  match d with
  | ThreadData.classroomThread _ _ _ _ _ => classroom
  | ThreadData.genericThread _ _ _ _ => generic
  end.

Definition TITLE_LIMIT : nat := 150.
Definition CONTENT_LIMIT : nat := 2500.

Definition setTitle (v : JS.str) (st : State) : State :=
  {| title := v; content := content st; selectedUnitId := selectedUnitId st;
     selectedCategory := selectedCategory st; visibility := visibility st;
     tags := tags st; currentTag := currentTag st;
     isGeneratingAiSuggestion := isGeneratingAiSuggestion st;
     showPreview := showPreview st |}.

Definition setContent (v : JS.str) (st : State) : State :=
  {| title := title st; content := v; selectedUnitId := selectedUnitId st;
     selectedCategory := selectedCategory st; visibility := visibility st;
     tags := tags st; currentTag := currentTag st;
     isGeneratingAiSuggestion := isGeneratingAiSuggestion st;
     showPreview := showPreview st |}.

Definition setSelectedUnitId (v : JS.str) (st : State) : State :=
  {| title := title st; content := content st; selectedUnitId := v;
     selectedCategory := selectedCategory st; visibility := visibility st;
     tags := tags st; currentTag := currentTag st;
     isGeneratingAiSuggestion := isGeneratingAiSuggestion st;
     showPreview := showPreview st |}.

Definition setSelectedCategory (v : JS.str) (st : State) : State :=
  {| title := title st; content := content st;
     selectedUnitId := selectedUnitId st;
     selectedCategory := v; visibility := visibility st;
     tags := tags st; currentTag := currentTag st;
     isGeneratingAiSuggestion := isGeneratingAiSuggestion st;
     showPreview := showPreview st |}.

Definition setVisibility (v : Visibility) (st : State) : State :=
  {| title := title st; content := content st;
     selectedUnitId := selectedUnitId st;
     selectedCategory := selectedCategory st; visibility := v;
     tags := tags st; currentTag := currentTag st;
     isGeneratingAiSuggestion := isGeneratingAiSuggestion st;
     showPreview := showPreview st |}.

Definition setTags (v : list JS.str) (st : State) : State :=
  {| title := title st; content := content st;
     selectedUnitId := selectedUnitId st;
     selectedCategory := selectedCategory st; visibility := visibility st;
     tags := v; currentTag := currentTag st;
     isGeneratingAiSuggestion := isGeneratingAiSuggestion st;
     showPreview := showPreview st |}.

Definition setCurrentTag (v : JS.str) (st : State) : State :=
  {| title := title st; content := content st;
     selectedUnitId := selectedUnitId st;
     selectedCategory := selectedCategory st; visibility := visibility st;
     tags := tags st; currentTag := v;
     isGeneratingAiSuggestion := isGeneratingAiSuggestion st;
     showPreview := showPreview st |}.

Definition setIsGeneratingAiSuggestion (v : bool) (st : State) : State :=
  {| title := title st; content := content st;
     selectedUnitId := selectedUnitId st;
     selectedCategory := selectedCategory st; visibility := visibility st;
     tags := tags st; currentTag := currentTag st;
     isGeneratingAiSuggestion := v;
     showPreview := showPreview st |}.

Definition setShowPreview (v : bool) (st : State) : State :=
  {| title := title st; content := content st;
     selectedUnitId := selectedUnitId st;
     selectedCategory := selectedCategory st; visibility := visibility st;
     tags := tags st; currentTag := currentTag st;
     isGeneratingAiSuggestion := isGeneratingAiSuggestion st;
     showPreview := v |}.

(** [[...new Set(l)]]: the first occurrence of each element, in order. *)
Definition uniq (l : list JS.str) : list JS.str :=
  fold_left (fun acc x => if bool_decide (x ∈ acc) then acc else acc ++ [x]) l [].

(** [units.find((unit) => unit.id === id)]. *)
Definition findUnit (us : list Unit_) (id : JS.str) : option Unit_ :=
  List.find (fun unit => bool_decide (unit_id unit = id)) us.

Section Form.
Variable toLowerCase : JS.str -> JS.str.
Variable props : Props.

Definition removeTag (tagToRemove : JS.str) (st : State) : State :=
  setTags (List.filter (fun tag => bool_decide (tag <> tagToRemove)) (tags st)) st.

Definition handleAddTag (key : JS.str) (st : State) : State :=
  if bool_decide (key = JS.lit "Enter") && JS.truthy (JS.trim (currentTag st)) then
    let tag := toLowerCase (JS.trim (currentTag st)) in
    let st1 := if bool_decide (tag ∈ tags st) then st
               else setTags (tags st ++ [tag]) st in
    setCurrentTag [] st1
  else st.

(** [generateAiSuggestion], run until its timer has fired, with nothing
    happening to the form in between. *)
Definition generateAiSuggestion (st : State) : State :=
  if negb (JS.truthy (JS.trim (title st))) || negb (JS.truthy (JS.trim (content st)))
  then st
  else
    let lower := toLowerCase (content st) in
    let autoTags :=
      (if JS.includes lower (JS.lit "equation") then [JS.lit "equations"] else [])
      ++ (if JS.includes lower (JS.lit "graph") then [JS.lit "graphing"] else [])
      ++ (if JS.includes lower (JS.lit "formula") then [JS.lit "formulas"] else [])
      ++ (if JS.includes lower (JS.lit "proof") then [JS.lit "proofs"] else []) in
    let st1 := setIsGeneratingAiSuggestion true st in
    let st2 := setTags (uniq (tags st1 ++ autoTags)) st1 in
    setIsGeneratingAiSuggestion false st2.

(** [generateAiSuggestion] in its two parts, around the [await] of
    2000 ms. At the click: the guard, then the flag. When the timer fires:
    the tags derived from the content the form held at the click are added,
    by a functional update, to the tags the form holds by then, and the flag
    is taken off. Other events may come in between. *)
Definition suggestedTags (content : JS.str) : list JS.str :=
  let lower := toLowerCase content in
  (if JS.includes lower (JS.lit "equation") then [JS.lit "equations"] else [])
  ++ (if JS.includes lower (JS.lit "graph") then [JS.lit "graphing"] else [])
  ++ (if JS.includes lower (JS.lit "formula") then [JS.lit "formulas"] else [])
  ++ (if JS.includes lower (JS.lit "proof") then [JS.lit "proofs"] else []).

Definition aiSuggestionStart (st : State) : State :=
  if negb (JS.truthy (JS.trim (title st))) || negb (JS.truthy (JS.trim (content st)))
  then st
  else setIsGeneratingAiSuggestion true st.

Definition aiSuggestionFinish (content : JS.str) (st : State) : State :=
  setIsGeneratingAiSuggestion false
    (setTags (uniq (tags st ++ suggestedTags content)) st).

(** [handleSubmit]: the calls of [onSubmit] it makes, in order. *)
Definition handleSubmit (st : State) : list ThreadData.t :=
  if negb (JS.truthy (JS.trim (title st))) || negb (JS.truthy (JS.trim (content st)))
  then []
  else if bool_decide (threadType props = classroom)
          && negb (JS.truthy (selectedUnitId st)) then []
  else if bool_decide (threadType props = generic)
          && negb (JS.truthy (selectedCategory st)) then []
  else
    let baseThreadData :=
      {| ThreadData.title := JS.trim (title st);
         ThreadData.content := JS.trim (content st);
         ThreadData.authorId := JS.lit "current-user-id";
         ThreadData.authorName := JS.lit "Current User";
         ThreadData.tags := tags st |} in
    if bool_decide (threadType props = classroom) then
      let selectedUnit := findUnit (units props) (selectedUnitId st) in
      [ThreadData.classroomThread baseThreadData
         (classroomId props)
         (match classroomName props with
          | Some n => if JS.truthy n then n else []
          | None => []
          end)
         (selectedUnitId st)
         (match selectedUnit with
          | Some u => if JS.truthy (unit_name u) then unit_name u else []
          | None => []
          end)]
    else
      [ThreadData.genericThread baseThreadData
         (selectedCategory st)
         (visibility st)
         (if bool_decide (visibility st = restricted)
          then Some [JS.lit "teacher"; JS.lit "admin"] else None)].

(** What can happen to the form: what the user does, and the timer of a
    suggestion firing, with the content of the form at its click. Every
    session of the form is a sequence of these events. *)
Inductive Event :=
| titleChange (value : JS.str)
| contentChange (value : JS.str)
| unitChange (value : JS.str)
| categoryChange (value : JS.str)
| visibilityChange (value : Visibility)
| currentTagChange (value : JS.str)
| tagKeyDown (key : JS.str)
| removeTagClick (tag : JS.str)
| aiSuggestionClick
| aiSuggestionTimer (content : JS.str)
| previewToggle
| submit.

(** One event: the next state and the [onSubmit] calls made. *)
Definition step (st : State) (e : Event) : State * list ThreadData.t :=
  match e with
  | titleChange value => (setTitle (JS.slice0 value TITLE_LIMIT) st, [])
  | contentChange value => (setContent value st, [])
  | unitChange value => (setSelectedUnitId value st, [])
  | categoryChange value => (setSelectedCategory value st, [])
  | visibilityChange value => (setVisibility value st, [])
  | currentTagChange value => (setCurrentTag value st, [])
  | tagKeyDown key => (handleAddTag key st, [])
  | removeTagClick tag => (removeTag tag st, [])
  | aiSuggestionClick => (aiSuggestionStart st, [])
  | aiSuggestionTimer content => (aiSuggestionFinish content st, [])
  | previewToggle => (setShowPreview (negb (showPreview st)) st, [])
  | submit => (st, handleSubmit st)
  end.

(** A session: the events in order, from a state on; the final state
    and every [onSubmit] call made on the way. *)
Fixpoint run (st : State) (es : list Event) : State * list ThreadData.t :=
  match es with
  | [] => (st, [])
  | e :: es' =>
      let '(st1, out1) := step st e in
      let '(st2, out2) := run st1 es' in
      (st2, out1 ++ out2)
  end.

End Form.

(** The early returns of [handleSubmit]: what keeps a submission back. *)
Definition blocked (props : Props) (st : State) : Prop :=
  JS.trim (title st) = [] \/ JS.trim (content st) = []
  \/ (threadType props = classroom /\ selectedUnitId st = [])
  \/ (threadType props = generic /\ selectedCategory st = []).

(** The title limit, on a form state and on a payload. *)
Definition titleOk (st : State) : Prop :=
  (JS.length (title st) <= TITLE_LIMIT)%nat.

Definition payloadOk (d : ThreadData.t) : Prop :=
  (JS.length (ThreadData.title (ThreadData.baseOf d)) <= TITLE_LIMIT)%nat.

(** *** The rest of the form *)

(** [countWords]. *)
Definition countWords (text : JS.str) : nat :=
  List.length
    (List.filter (fun word => (0 <? JS.length word)%nat)
       (JS.splitWhiteSpace (JS.trim text))).

(** The unit name a classroom payload carries: the name of the first unit
    with the selected id, the empty string if there is none. *)
Definition unitNameFor (props : Props) (st : State) : JS.str :=
  match findUnit (units props) (selectedUnitId st) with
  | Some u => unit_name u
  | None => []
  end.

(** [isValid], as the truth value the button reads. *)
Definition isValid (props : Props) (st : State) : bool :=
  JS.truthy (JS.trim (title st))
  && JS.truthy (JS.trim (content st))
  && JS.truthy (if bool_decide (threadType props = classroom)
                then selectedUnitId st else selectedCategory st).

Definition isContentOverLimit (st : State) : bool :=
  (CONTENT_LIMIT <? JS.length (content st))%nat.

(** The [disabled] attribute of the submit button. *)
Definition submitDisabled (props : Props) (st : State) : bool :=
  negb (isValid props st) || isContentOverLimit st.

(** The [disabled] attribute of the AI suggestion button. *)
Definition aiSuggestionDisabled (st : State) : bool :=
  negb (JS.truthy (JS.trim (title st)))
  || negb (JS.truthy (JS.trim (content st)))
  || isGeneratingAiSuggestion st.

End NewThreadModal.

(** ** Sample data *)

Module Examples.
Import ThreadsList.
Local Open Scope string_scope.

Definition thread (name : string) (ty : ThreadType)
    (unit_ category_ : option string) (updated replies_ : Z)
    (resolved_ : bool) : Thread :=
  {| id := JS.lit name; title := JS.lit name; content := JS.lit "body";
     authorId := JS.lit "u-1"; authorName := JS.lit "Ada";
     tags := [JS.lit "math"];
     createdAt := JS.int updated; updatedAt := JS.int updated;
     repliesCount := replies_; isResolved := resolved_;
     threadType := ty;
     unitId := JS.lit <$> unit_; category := JS.lit <$> category_ |}.

Definition algebra : Thread :=
  thread "Algebra" classroom (Some "u1") None 1 5 false.
Definition welcome : Thread :=
  thread "Welcome" generic (Some "u1") (Some "general") 2 1 true.
Definition limits : Thread :=
  thread "Limits" classroom (Some "u2") None 3 9 true.

Definition threads : list Thread := [algebra; welcome; limits].

(** The initial state of the list: no filter, most recent first. *)
Definition noFilter (key : SortKey) : Query :=
  {| searchQuery := []; selectedThreadType := None;
     selectedUnit := all; selectedCategory := all; sortBy := key |}.

Definition blankSearch : Query :=
  {| searchQuery := JS.lit "   "; selectedThreadType := None;
     selectedUnit := all; selectedCategory := all; sortBy := recent |}.

Definition unitU1 : Query :=
  {| searchQuery := []; selectedThreadType := None;
     selectedUnit := JS.lit "u1"; selectedCategory := all; sortBy := recent |}.

(** A store whose array [0] is the [threads] prop. *)
Definition store : gmap nat (list Thread) := {[ 0%nat := threads ]}.




(** A list with two threads of five replies each. *)
Definition seminar : Thread :=
  thread "Seminar" classroom (Some "u1") None 2 5 false.

Definition tiedThreads : list Thread := [algebra; seminar; limits].
Definition tiedStore : gmap nat (list Thread) := {[ 0%nat := tiedThreads ]}.

Definition classroomOnly : Query :=
  {| searchQuery := []; selectedThreadType := Some classroom;
     selectedUnit := all; selectedCategory := all; sortBy := recent |}.

(** More queries on the sample list. *)
Definition genericOnly : Query :=
  {| searchQuery := []; selectedThreadType := Some generic;
     selectedUnit := all; selectedCategory := JS.lit "general";
     sortBy := replies |}.

Definition unitAndCategory : Query :=
  {| searchQuery := []; selectedThreadType := None;
     selectedUnit := JS.lit "u1"; selectedCategory := JS.lit "general";
     sortBy := recent |}.

(** A note, and the card in edit mode with [text] typed in. *)
Definition note : ContentItem.EducationalContent :=
  {| ContentItem.id := JS.lit "c1"; ContentItem.type := ContentItem.NOTE;
     ContentItem.content := JS.lit "Old text"; ContentItem.version := 1;
     ContentItem.createdAt := 0 |}.

Definition editing (text : string) : ContentItem.State :=
  {| ContentItem.isExpanded := true; ContentItem.isDeleting := false;
     ContentItem.showDeleteConfirm := false; ContentItem.isDeleted := false;
     ContentItem.deleteSuccess := false; ContentItem.isEditing := true;
     ContentItem.editedContent := JS.lit text; ContentItem.isSaving := false;
     ContentItem.saveSuccess := false; ContentItem.editError := None |}.

(** The card with the "Are you sure?" prompt open. *)
Definition confirmingDelete : ContentItem.State :=
  {| ContentItem.isExpanded := true; ContentItem.isDeleting := false;
     ContentItem.showDeleteConfirm := true; ContentItem.isDeleted := false;
     ContentItem.deleteSuccess := false; ContentItem.isEditing := false;
     ContentItem.editedContent := JS.lit "Old text";
     ContentItem.isSaving := false; ContentItem.saveSuccess := false;
     ContentItem.editError := None |}.

(** A link, and the card of a link in edit mode. *)
Definition link : ContentItem.EducationalContent :=
  {| ContentItem.id := JS.lit "c2"; ContentItem.type := ContentItem.LINK;
     ContentItem.content := JS.lit "http://a.example"; ContentItem.version := 3;
     ContentItem.createdAt := 0 |}.

(** The card at rest: expanded, nothing in progress. *)
Definition atRest : ContentItem.State :=
  {| ContentItem.isExpanded := true; ContentItem.isDeleting := false;
     ContentItem.showDeleteConfirm := false; ContentItem.isDeleted := false;
     ContentItem.deleteSuccess := false; ContentItem.isEditing := false;
     ContentItem.editedContent := JS.lit "Old text";
     ContentItem.isSaving := false; ContentItem.saveSuccess := false;
     ContentItem.editError := None |}.

(** A stand-in for the URL parser: accepts what starts with "http". *)
Definition httpURL (s : JS.str) : bool := JS.startsWith s (JS.lit "http").

(** The form of a classroom with one unit, and a session on it. *)
Definition classroomProps : NewThreadModal.Props :=
  {| NewThreadModal.classroomId := Some (JS.lit "room-1");
     NewThreadModal.classroomName := Some (JS.lit "Maths");
     NewThreadModal.units :=
       [{| NewThreadModal.unit_id := JS.lit "u1";
           NewThreadModal.unit_name := JS.lit "Algebra" |}];
     NewThreadModal.threadType := NewThreadModal.classroom |}.

Definition filledForm : NewThreadModal.State :=
  {| NewThreadModal.title := JS.lit " Why? ";
     NewThreadModal.content := JS.lit "Because.";
     NewThreadModal.selectedUnitId := JS.lit "u1";
     NewThreadModal.selectedCategory := [];
     NewThreadModal.visibility := NewThreadModal.public;
     NewThreadModal.tags := []; NewThreadModal.currentTag := [];
     NewThreadModal.isGeneratingAiSuggestion := false;
     NewThreadModal.showPreview := false |}.

Definition noUnitForm : NewThreadModal.State :=
  NewThreadModal.setSelectedUnitId [] filledForm.

(** A form with a tag typed in, and a generic form over the content limit. *)
Definition typingTag : NewThreadModal.State :=
  NewThreadModal.setCurrentTag (JS.lit " Limits ") filledForm.

Definition genericProps : NewThreadModal.Props :=
  {| NewThreadModal.classroomId := None;
     NewThreadModal.classroomName := None;
     NewThreadModal.units := [];
     NewThreadModal.threadType := NewThreadModal.generic |}.

Definition genericForm : NewThreadModal.State :=
  NewThreadModal.setVisibility NewThreadModal.restricted
    (NewThreadModal.setSelectedCategory (JS.lit "help") filledForm).

End Examples.

(** * Properties *)

(** ** Strings *)

Module JSFacts.
Import JS.

Lemma trimStart_length s : (List.length (trimStart s) <= List.length s)%nat.
Proof.
  induction s as [|c s IH]; simpl; [lia|].
  destruct (isWhiteSpace c); simpl; lia.
Qed.

Lemma trim_length s : (length (trim s) <= length s)%nat.
Proof.
  unfold length, trim, trimEnd.
  rewrite length_rev.
  etransitivity; [apply trimStart_length|].
  rewrite length_rev. apply trimStart_length.
Qed.

Lemma truthy_false s : truthy s = false <-> s = [].
Proof. destruct s; simpl; split; congruence. Qed.

Lemma truthy_true s : truthy s = true <-> s <> [].
Proof. destruct s; simpl; split; congruence. Qed.

Lemma slice0_length s n : (length (slice0 s n) <= n)%nat.
Proof. unfold length, slice0. rewrite length_take. lia. Qed.

End JSFacts.

(** ** Arrays: filter and sort *)

Module StoreFacts.
Section StoreFacts.
Context {A : Type}.
Implicit Types (l : list A) (h : gmap nat (list A)) (r : Store.ref).

Lemma filter_sublist (p : A -> bool) l : List.filter p l `sublist_of` l.
Proof.
  induction l as [|x l IH]; simpl; [constructor|].
  destruct (p x); by constructor.
Qed.

Lemma filter_Forall (p : A -> bool) l : Forall (fun x => p x = true) (List.filter p l).
Proof.
  induction l as [|x l IH]; simpl; [constructor|].
  destruct (p x) eqn:E; [by constructor|done].
Qed.

Lemma insert_by_perm (cmp : A -> A -> Z) x l :
  Store.insert_by cmp x l ≡ₚ x :: l.
Proof.
  induction l as [|y l IH]; simpl; [done|].
  destruct (cmp x y <=? 0); [done|].
  rewrite IH. apply Permutation_swap.
Qed.

Lemma sorted_by_perm (cmp : A -> A -> Z) l : Store.sorted_by cmp l ≡ₚ l.
Proof.
  induction l as [|x l IH]; simpl; [done|].
  by rewrite insert_by_perm, IH.
Qed.

(** A comparator that subtracts keys, as [(a, b) => key(b) - key(a)]. *)
Section ByKey.
Variable key : A -> Z.
Variable cmp : A -> A -> Z.
Hypothesis cmp_key : forall a b, cmp a b = key b - key a.

Let R (a b : A) : Prop := key b <= key a.

Lemma insert_by_sorted x l :
  StronglySorted R l -> StronglySorted R (Store.insert_by cmp x l).
Proof.
  induction 1 as [|y l Hs IH Hy]; simpl.
  - repeat constructor.
  - destruct (Z.leb_spec (cmp x y) 0) as [Hle|Hgt]; rewrite cmp_key in *.
    + constructor; [by constructor|].
      constructor; [unfold R; lia|].
      eapply Forall_impl; [exact Hy|]. unfold R. simpl. intros; lia.
    + constructor; [exact IH|].
      rewrite insert_by_perm. constructor; [unfold R; lia|exact Hy].
Qed.

Lemma sorted_by_sorted l : StronglySorted R (Store.sorted_by cmp l).
Proof.
  induction l as [|x l IH]; simpl; [constructor|].
  by apply insert_by_sorted.
Qed.

Lemma sorted_by_lookup l (i j : nat) a b :
  (i < j)%nat ->
  Store.sorted_by cmp l !! i = Some a ->
  Store.sorted_by cmp l !! j = Some b ->
  key b <= key a.
Proof.
  generalize (sorted_by_sorted l). generalize (Store.sorted_by cmp l).
  intros k Hk. revert i j. induction Hk as [|y k Hs IH Hy]; intros i j Hij Hi Hj.
  - done.
  - destruct j as [|j]; [lia|]. simpl in Hj.
    destruct i as [|i]; simpl in Hi.
    + injection Hi as <-. rewrite Forall_forall in Hy.
      apply Hy. by eapply list_elem_of_lookup_2.
    + eapply IH; [|exact Hi|exact Hj]. lia.
Qed.
(** The sort is stable: records with the same key keep the order they
    had. *)
Lemma insert_by_stable k x l :
  List.filter (fun z => key z =? k) (Store.insert_by cmp x l)
  = List.filter (fun z => key z =? k) (x :: l).
Proof.
  induction l as [|y l IH]; [done|]. cbn [Store.insert_by].
  destruct (Z.leb_spec (cmp x y) 0) as [Hle|Hgt]; [done|].
  rewrite cmp_key in Hgt.
  cbn [List.filter] in *. rewrite IH.
  destruct (Z.eqb_spec (key x) k), (Z.eqb_spec (key y) k); try done; lia.
Qed.

Lemma sorted_by_stable k l :
  List.filter (fun z => key z =? k) (Store.sorted_by cmp l)
  = List.filter (fun z => key z =? k) l.
Proof.
  induction l as [|x l IH]; [done|]. cbn [Store.sorted_by].
  rewrite insert_by_stable. cbn [List.filter]. by rewrite IH.
Qed.
End ByKey.

(** The order depends on the comparator only through the pairs of the
    list. *)
Lemma insert_by_ext (cmp cmp' : A -> A -> Z) x l :
  (forall y, y ∈ l -> cmp x y = cmp' x y) ->
  Store.insert_by cmp x l = Store.insert_by cmp' x l.
Proof.
  induction l as [|y l IH]; intros H; [done|]. cbn [Store.insert_by].
  rewrite (H y) by (by left). rewrite IH; [done|].
  intros z Hz. apply H. by right.
Qed.

Lemma sorted_by_ext (cmp cmp' : A -> A -> Z) l :
  (forall x y, x ∈ l -> y ∈ l -> cmp x y = cmp' x y) ->
  Store.sorted_by cmp l = Store.sorted_by cmp' l.
Proof.
  induction l as [|x l IH]; intros H; [done|]. cbn [Store.sorted_by].
  rewrite IH by (intros y z Hy Hz; apply H; by right).
  apply insert_by_ext. intros y Hy. rewrite sorted_by_perm in Hy.
  apply H; [by left|by right].
Qed.

Lemma bind_run {R S} (m : Store.M A R) (k : R -> Store.M A S) h x h' :
  m h = Some (x, h') -> Store.bind m k h = k x h'.
Proof. unfold Store.bind. by intros ->. Qed.

Lemma Array_sort_run (cmp : A -> A -> JS.Num) r h l :
  h !! r = Some l ->
  Store.Array_sort cmp r h
  = Some (r, <[r := Store.sorted_by (JS.SortCompare cmp) l]> h).
Proof.
  intros Hr. unfold Store.Array_sort, Store.bind, Store.read, Store.write, Store.ret.
  by rewrite Hr.
Qed.

Lemma stage_ret : Store.stage_spec Store.ret (fun l => l) false.
Proof. intros r h l Hr. by exists r, h. Qed.

Lemma stage_filter (p : A -> bool) :
  Store.stage_spec (Store.Array_filter p) (List.filter p) true.
Proof.
  intros r h l Hr. unfold Store.Array_filter, Store.bind, Store.read, Store.alloc.
  rewrite Hr. eexists _, _. split; [reflexivity|].
  assert (h !! fresh (dom h) = None) as Hf
    by (apply not_elem_of_dom, is_fresh).
  split; [apply lookup_insert_eq|].
  split; [by apply insert_subseteq|done].
Qed.

Lemma stage_bind f1 g1 b1 f2 g2 b2 :
  Store.stage_spec f1 g1 b1 -> Store.stage_spec f2 g2 b2 ->
  Store.stage_spec (fun r => Store.bind (f1 r) f2) (fun l => g2 (g1 l)) (b1 || b2).
Proof.
  intros H1 H2 r h l Hr.
  destruct (H1 r h l Hr) as (r1 & h1 & E1 & L1 & S1 & F1).
  destruct (H2 r1 h1 _ L1) as (r2 & h2 & E2 & L2 & S2 & F2).
  exists r2, h2. unfold Store.bind. rewrite E1.
  split; [exact E2|]. split; [exact L2|].
  split; [by etransitivity|].
  destruct b2; simpl.
  - rewrite orb_true_r. by eapply lookup_weaken_None.
  - destruct F2 as [-> ->]. by rewrite orb_false_r.
Qed.

(** Sorting after a pipeline stage: the array the stage left is
    reordered in place. *)
Lemma stage_sort f g b (cmp : A -> A -> JS.Num) r h l :
  Store.stage_spec f g b -> h !! r = Some l ->
  exists r' h',
    Store.bind (f r) (fun x => Store.bind (Store.Array_sort cmp x)
                                 (fun _ => Store.ret x)) h = Some (r', h')
    /\ h' !! r' = Some (Store.sorted_by (JS.SortCompare cmp) (g l))
    /\ if b then h' !! r = Some l
       else r' = r /\ h' = <[r := Store.sorted_by (JS.SortCompare cmp) l]> h.
Proof.
  intros Hf Hr. destruct (Hf r h l Hr) as (r1 & h1 & E1 & L1 & S1 & F1).
  exists r1, (<[r1 := Store.sorted_by (JS.SortCompare cmp) (g l)]> h1).
  rewrite (bind_run _ _ _ _ _ E1).
  rewrite (bind_run _ _ _ _ _ (Array_sort_run cmp _ _ _ L1)).
  split; [reflexivity|].
  split; [apply lookup_insert_eq|].
  destruct b.
  - rewrite lookup_insert_ne by congruence.
    by eapply lookup_weaken.
  - destruct F1 as [-> ->]. split; [done|].
    rewrite Hr in L1. by injection L1 as <-.
Qed.

End StoreFacts.
End StoreFacts.

(** ** ThreadsList: the filtered list and the statistics *)

Module ThreadsListSpec.
Import ThreadsList.

Section Engine.
Variable toLowerCase : JS.str -> JS.str.

Lemma searchStage_spec q :
  Store.stage_spec (searchStage toLowerCase q) (searchList toLowerCase q)
    (JS.truthy (JS.trim (searchQuery q))).
Proof.
  unfold searchStage, searchList.
  destruct (JS.truthy _); [apply StoreFacts.stage_filter|apply StoreFacts.stage_ret].
Qed.

Lemma typeStage_spec q :
  Store.stage_spec (typeStage q) (typeList q)
    (bool_decide (selectedThreadType q <> None)).
Proof.
  unfold typeStage, typeList.
  destruct (selectedThreadType q); [apply StoreFacts.stage_filter|apply StoreFacts.stage_ret].
Qed.

Lemma unitStage_spec q :
  Store.stage_spec (unitStage q) (unitList q)
    (bool_decide (selectedUnit q <> all)).
Proof.
  unfold unitStage, unitList.
  destruct (bool_decide _); [apply StoreFacts.stage_filter|apply StoreFacts.stage_ret].
Qed.

Lemma categoryStage_spec q :
  Store.stage_spec (categoryStage q) (categoryList q)
    (bool_decide (selectedCategory q <> all)).
Proof.
  unfold categoryStage, categoryList.
  destruct (bool_decide _); [apply StoreFacts.stage_filter|apply StoreFacts.stage_ret].
Qed.

Lemma filterStages_spec q :
  Store.stage_spec (filterStages toLowerCase q) (filteredList toLowerCase q)
    (anyFilter q).
Proof.
  unfold filterStages, filteredList, anyFilter.
  apply (StoreFacts.stage_bind
           (fun r => Store.bind (Store.bind (searchStage toLowerCase q r)
                                   (typeStage q)) (unitStage q))
           (fun l => unitList q (typeList q (searchList toLowerCase q l)))).
  2: apply categoryStage_spec.
  apply (StoreFacts.stage_bind
           (fun r => Store.bind (searchStage toLowerCase q r) (typeStage q))
           (fun l => typeList q (searchList toLowerCase q l))).
  2: apply unitStage_spec.
  apply (StoreFacts.stage_bind (searchStage toLowerCase q)
           (searchList toLowerCase q)).
  - apply searchStage_spec.
  - apply typeStage_spec.
Qed.

Lemma filteredThreads_stages q r h :
  filteredThreads toLowerCase q r h
  = Store.bind (filterStages toLowerCase q r)
      (fun x => Store.bind (Store.Array_sort (compareFn (sortBy q)) x)
                  (fun _ => Store.ret x)) h.
Proof.
  unfold filteredThreads, filterStages, Store.bind.
  destruct (searchStage toLowerCase q r h) as [[r1 h1]|]; [|done].
  destruct (typeStage q r1 h1) as [[r2 h2]|]; [|done].
  destruct (unitStage q r2 h2) as [[r3 h3]|]; [|done].
  by destruct (categoryStage q r3 h3) as [[r4 h4]|].
Qed.

(** A run of [filteredThreads] on a store where [threads] holds [l]:
    it returns an array holding the filtered list in sorted order. With
    some filter on, [threads] still holds [l]; with none, the array
    returned is [threads] itself, sorted in place. *)
Lemma filteredThreads_run q r h l :
  h !! r = Some l ->
  exists r' h',
    filteredThreads toLowerCase q r h = Some (r', h')
    /\ h' !! r' = Some (Store.sorted_by (JS.SortCompare (compareFn (sortBy q)))
                         (filteredList toLowerCase q l))
    /\ if anyFilter q then h' !! r = Some l
       else r' = r
            /\ h' = <[r := Store.sorted_by (JS.SortCompare (compareFn (sortBy q))) l]> h.
Proof.
  intros Hr.
  destruct (StoreFacts.stage_sort _ _ _ (compareFn (sortBy q)) r h l
              (filterStages_spec q) Hr) as (r' & h' & E & L & F).
  exists r', h'. by rewrite filteredThreads_stages.
Qed.

Lemma searchList_sublist q l : searchList toLowerCase q l `sublist_of` l.
Proof.
  unfold searchList. destruct (JS.truthy _); [|done].
  apply StoreFacts.filter_sublist.
Qed.

Lemma typeList_sublist q l : typeList q l `sublist_of` l.
Proof.
  unfold typeList. destruct (selectedThreadType q); [|done].
  apply StoreFacts.filter_sublist.
Qed.

Lemma unitList_sublist q l : unitList q l `sublist_of` l.
Proof.
  unfold unitList. destruct (bool_decide _); [|done].
  apply StoreFacts.filter_sublist.
Qed.

Lemma categoryList_sublist q l : categoryList q l `sublist_of` l.
Proof.
  unfold categoryList. destruct (bool_decide _); [|done].
  apply StoreFacts.filter_sublist.
Qed.

Lemma filteredList_sublist q l : filteredList toLowerCase q l `sublist_of` l.
Proof.
  unfold filteredList.
  etransitivity; [apply categoryList_sublist|].
  etransitivity; [apply unitList_sublist|].
  etransitivity; [apply typeList_sublist|].
  apply searchList_sublist.
Qed.

(** With the unit filter on, every thread that is left is a classroom
    thread of the selected unit. *)
Lemma filteredList_unit q l :
  selectedUnit q <> all ->
  Forall (fun t => threadType t = classroom
                   /\ unitId t = Some (selectedUnit q))
         (filteredList toLowerCase q l).
Proof.
  intros Hu. unfold filteredList.
  apply Forall_forall. intros t Ht.
  eapply elem_of_sublist in Ht; [|apply categoryList_sublist].
  revert t Ht. apply Forall_forall.
  unfold unitList. rewrite bool_decide_eq_true_2 by done.
  eapply Forall_impl; [apply StoreFacts.filter_Forall|].
  intros t. unfold matchesUnit. cbv beta.
  rewrite andb_true_iff, !bool_decide_eq_true. tauto.
Qed.


End Engine.


Lemma length_filter_countIf {A} (p : A -> bool) (l : list A) :
  Z.of_nat (List.length (List.filter p l)) = countIf p l.
Proof.
  induction l as [|x l IH]; simpl; [done|].
  destruct (p x); simpl List.length; lia.
Qed.

Lemma countIf_perm {A} (p : A -> bool) (l l' : list A) :
  l ≡ₚ l' -> countIf p l = countIf p l'.
Proof. induction 1; simpl; lia. Qed.

Lemma threadStats_countIf l :
  threadStats l =
  {| Stats.total := Z.of_nat (List.length l);
     Stats.resolved := countIf isResolved l;
     Stats.open := Z.of_nat (List.length l) - countIf isResolved l;
     Stats.classroom := countIf (fun t => bool_decide (threadType t = classroom)) l;
     Stats.generic := countIf (fun t => bool_decide (threadType t = generic)) l |}.
Proof. unfold threadStats. by rewrite !length_filter_countIf. Qed.

Lemma countIf_bounds {A} (p : A -> bool) (l : list A) :
  0 <= countIf p l <= Z.of_nat (List.length l).
Proof. induction l as [|x l IH]; simpl List.length; simpl; [lia|]. destruct (p x); lia. Qed.

(** C1, on the code: with no filter on, [filtered] is the [threads] prop
    itself and [filtered.sort] reorders it in place. On the sample list
    (update times 1, 2, 3) the array that was passed in holds the
    threads in the order 3, 2, 1 after the run, and no longer what it held
    before. *)
Theorem filteredThreads_sorts_threads_in_place (toLowerCase : JS.str -> JS.str) :
  exists h',
    filteredThreads toLowerCase (Examples.noFilter recent) 0%nat Examples.store
    = Some (0%nat, h')
    /\ h' !! 0%nat = Some [Examples.limits; Examples.welcome; Examples.algebra]
    /\ h' !! 0%nat <> Examples.store !! 0%nat.
Proof.
  destruct (filteredThreads_run toLowerCase (Examples.noFilter recent) 0%nat
              Examples.store Examples.threads eq_refl)
    as (r' & h' & E & L & F).
  change (anyFilter (Examples.noFilter recent)) with false in F.
  destruct F as [-> ->]. eexists. split; [exact E|].
  rewrite lookup_insert_eq. split; [reflexivity|].
  unfold Examples.store. rewrite lookup_singleton_eq. discriminate.
Qed.

(** With no filter on, the array returned is the [threads] array, which
    now holds its records in sorted order. *)
Lemma filteredThreads_in_place toLowerCase q r h l :
  h !! r = Some l -> anyFilter q = false ->
  filteredThreads toLowerCase q r h
  = Some (r, <[r := Store.sorted_by (JS.SortCompare (compareFn (sortBy q))) l]> h).
Proof.
  intros Hr Hq.
  destruct (filteredThreads_run toLowerCase q r h l Hr) as (r' & h' & E & _ & F).
  rewrite Hq in F. by destruct F as [-> ->].
Qed.

(** With some filter on, the [threads] array is left as it was. *)
Lemma filteredThreads_frame toLowerCase q r h l :
  h !! r = Some l -> anyFilter q = true ->
  exists r' h',
    filteredThreads toLowerCase q r h = Some (r', h') /\ h' !! r = Some l.
Proof.
  intros Hr Hq.
  destruct (filteredThreads_run toLowerCase q r h l Hr) as (r' & h' & E & _ & F).
  rewrite Hq in F. by exists r', h'.
Qed.

(** C4: a search string that is empty once trimmed switches the search
    stage off: it hands back the array it was given, in an unchanged
    store, so every record of the list is kept, in order. *)
Theorem blank_search_is_identity (toLowerCase : JS.str -> JS.str) q r h :
  JS.trim (searchQuery q) = [] ->
  searchStage toLowerCase q r h = Some (r, h)
  /\ forall l, searchList toLowerCase q l = l.
Proof.
  intros Hq. unfold searchStage, searchList. by rewrite Hq.
Qed.

Lemma blank_search_is_identity_witness :
  JS.trim (searchQuery Examples.blankSearch) = []
  /\ searchStage JS.asciiLower Examples.blankSearch 0%nat Examples.store
     = Some (0%nat, Examples.store).
Proof.
  split; [reflexivity|].
  apply (blank_search_is_identity JS.asciiLower Examples.blankSearch 0%nat
           Examples.store). reflexivity.
Defined.

(** C5: with a unit selected (anything but "all"), every thread in the
    result is a classroom thread of the list whose unit id is the selected
    one; a generic thread is never in the result, whatever its unit id. *)
Theorem unit_filter_keeps_classroom_of_unit (toLowerCase : JS.str -> JS.str) q r h L :
  h !! r = Some L ->
  selectedUnit q <> all ->
  exists r' h' out,
    filteredThreads toLowerCase q r h = Some (r', h')
    /\ h' !! r' = Some out
    /\ Forall (fun t => threadType t = classroom
                        /\ unitId t = Some (selectedUnit q)
                        /\ t ∈ L) out
    /\ forall t, threadType t = generic -> t ∉ out.
Proof.
  intros Hr Hu.
  destruct (filteredThreads_run toLowerCase q r h L Hr) as (r' & h' & E & Hout & _).
  exists r', h', (Store.sorted_by (JS.SortCompare (compareFn (sortBy q))) (filteredList toLowerCase q L)).
  split; [exact E|]. split; [exact Hout|].
  assert (forall t, t ∈ Store.sorted_by (JS.SortCompare (compareFn (sortBy q))) (filteredList toLowerCase q L) ->
            threadType t = classroom /\ unitId t = Some (selectedUnit q) /\ t ∈ L) as H.
  { intros t Ht. rewrite StoreFacts.sorted_by_perm in Ht.
    pose proof (filteredList_unit toLowerCase q L Hu) as HF.
    rewrite Forall_forall in HF. destruct (HF t Ht) as [? ?].
    split; [done|]. split; [done|].
    eapply elem_of_sublist; [exact Ht|apply filteredList_sublist]. }
  split.
  - by apply Forall_forall.
  - intros t Hg Ht. destruct (H t Ht) as [Hc _]. congruence.
Qed.

Lemma unit_filter_keeps_classroom_of_unit_witness :
  exists r' h' out,
    filteredThreads JS.asciiLower Examples.unitU1 0%nat Examples.store = Some (r', h')
    /\ h' !! r' = Some out
    /\ Forall (fun t => threadType t = classroom
                        /\ unitId t = Some (selectedUnit Examples.unitU1)
                        /\ t ∈ Examples.threads) out
    /\ forall t, threadType t = generic -> t ∉ out.
Proof.
  apply (unit_filter_keeps_classroom_of_unit JS.asciiLower Examples.unitU1
           0%nat Examples.store Examples.threads).
  - reflexivity.
  - vm_compute. discriminate.
Defined.

(** The sample list has a generic thread whose unit id is the selected
    one: it is dropped all the same. *)
Example unit_filter_sample :
  filteredList JS.asciiLower Examples.unitU1 Examples.threads = [Examples.algebra]
  /\ unitId Examples.welcome = Some (selectedUnit Examples.unitU1).
Proof. split; reflexivity. Qed.

(** C6: the array returned holds a sub-multiset of the list that was
    passed in: a reordering of some of its records, each taken at most as
    often as it occurs there. *)
Theorem filteredThreads_submseteq (toLowerCase : JS.str -> JS.str) q r h L :
  h !! r = Some L ->
  exists r' h' out,
    filteredThreads toLowerCase q r h = Some (r', h')
    /\ h' !! r' = Some out
    /\ out ⊆+ L.
Proof.
  intros Hr.
  destruct (filteredThreads_run toLowerCase q r h L Hr) as (r' & h' & E & Hout & _).
  eexists r', h', _. split; [exact E|]. split; [exact Hout|].
  etransitivity; [apply Permutation_submseteq, StoreFacts.sorted_by_perm|].
  apply sublist_submseteq, filteredList_sublist.
Qed.

Lemma filteredThreads_submseteq_witness :
  exists r' h' out,
    filteredThreads JS.asciiLower Examples.unitU1 0%nat Examples.store = Some (r', h')
    /\ h' !! r' = Some out
    /\ out ⊆+ Examples.threads.
Proof.
  apply (filteredThreads_submseteq JS.asciiLower Examples.unitU1 0%nat
           Examples.store Examples.threads).
  reflexivity.
Defined.

Lemma compareFn_sub k a b :
  compareFn k a b = JS.sub (sortKeyOf k b) (sortKeyOf k a).
Proof. by destruct k. Qed.

(** On threads whose sort keys are numbers the comparator is the
    difference of the keys. *)
Lemma SortCompare_numbers k a b :
  sortKeyOf k a <> JS.NaN -> sortKeyOf k b <> JS.NaN ->
  JS.SortCompare (compareFn k) a b
  = JS.toZ (sortKeyOf k b) - JS.toZ (sortKeyOf k a).
Proof.
  unfold JS.SortCompare. rewrite compareFn_sub.
  by destruct (sortKeyOf k a), (sortKeyOf k b).
Qed.

Lemma sorted_by_numbers k (l : list Thread) :
  Forall (fun t => sortKeyOf k t <> JS.NaN) l ->
  Store.sorted_by (JS.SortCompare (compareFn k)) l
  = Store.sorted_by (fun a b => JS.toZ (sortKeyOf k b) - JS.toZ (sortKeyOf k a)) l.
Proof.
  intros Hl. rewrite Forall_forall in Hl.
  apply StoreFacts.sorted_by_ext. intros x y Hx Hy.
  apply SortCompare_numbers; by apply Hl.
Qed.

Lemma sorted_nonIncreasingNum k (l : list Thread) :
  Forall (fun t => sortKeyOf k t <> JS.NaN) l ->
  nonIncreasingNum (sortKeyOf k <$> Store.sorted_by (JS.SortCompare (compareFn k)) l).
Proof.
  intros Hl. rewrite (sorted_by_numbers k l Hl).
  intros i j x y Hij. rewrite !list_lookup_fmap.
  intros (a & Ha & ->)%fmap_Some (b & Hb & ->)%fmap_Some.
  pose proof (StoreFacts.sorted_by_lookup (fun t => JS.toZ (sortKeyOf k t)) _
                (fun _ _ => eq_refl) l i j a b Hij Ha Hb) as Hle.
  rewrite Forall_forall in Hl.
  apply list_elem_of_lookup_2 in Ha as Hal, Hb as Hbl.
  rewrite StoreFacts.sorted_by_perm in Hal, Hbl.
  pose proof (Hl a Hal). pose proof (Hl b Hbl). cbv beta in Hle.
  by destruct (sortKeyOf k a), (sortKeyOf k b).
Qed.







(** The sample list has reply counts 5, 1, 9. *)
Example sort_replies_sample :
  repliesCount <$> Examples.threads = [5; 1; 9]
  /\ repliesCount
       <$> Store.sorted_by (JS.SortCompare (compareFn replies)) Examples.threads
     = [9; 5; 1]
  /\ updatedAt
       <$> Store.sorted_by (JS.SortCompare (compareFn recent)) Examples.threads
     = [JS.int 3; JS.int 2; JS.int 1].
Proof. repeat split. Qed.

(** C8: the statistics of a list: [total] is its length, [resolved] the
    number of threads with the resolved flag, [open] the difference (never
    negative), [classroom] and [generic] the number of threads of each
    type; any reordering of the list has the same statistics. *)
Theorem threadStats_counts (L : list Thread) :
  Stats.total (threadStats L) = Z.of_nat (List.length L)
  /\ Stats.resolved (threadStats L) = countIf isResolved L
  /\ Stats.open (threadStats L)
     = Stats.total (threadStats L) - Stats.resolved (threadStats L)
  /\ 0 <= Stats.open (threadStats L)
  /\ Stats.classroom (threadStats L)
     = countIf (fun t => bool_decide (threadType t = classroom)) L
  /\ Stats.generic (threadStats L)
     = countIf (fun t => bool_decide (threadType t = generic)) L
  /\ forall L', L ≡ₚ L' -> threadStats L' = threadStats L.
Proof.
  rewrite threadStats_countIf. simpl.
  repeat split.
  - pose proof (countIf_bounds isResolved L). lia.
  - intros L' HL. rewrite threadStats_countIf.
    by rewrite <- !(countIf_perm _ _ _ HL), <- (Permutation_length HL).
Qed.

Lemma threadStats_counts_witness :
  threadStats [Examples.limits; Examples.algebra; Examples.welcome]
  = threadStats Examples.threads.
Proof.
  apply (threadStats_counts Examples.threads).
  unfold Examples.threads.
  symmetry.
  apply (Permutation_cons_append [Examples.algebra; Examples.welcome] Examples.limits).
Defined.

Example threadStats_sample :
  threadStats Examples.threads
  = {| Stats.total := 3; Stats.resolved := 2; Stats.open := 1;
       Stats.classroom := 2; Stats.generic := 1 |}.
Proof. reflexivity. Qed.

End ThreadsListSpec.

(** ** ContentItem: save and delete *)

Module ContentItemSpec.
Import ContentItem.

Lemma truthy_trim_nonempty s : JS.trim s <> [] -> JS.truthy (JS.trim s) = true.
Proof. apply JSFacts.truthy_true. Qed.

(** A save that passes validation and whose call is rejected: the call
    is issued, the failure is logged, and the state is the old one with
    the error message set and the saving flag off. *)
Lemma handleSave_rejected validURL content st :
  JS.trim (editedContent st) <> [] ->
  (type content = LINK \/ type content = VIDEO ->
   validURL (JS.trim (editedContent st)) = true) ->
  handleSave validURL rejected content st
  = (withEditError (Some "Failed to save changes. Please try again."%string)
       (withIsSaving false st),
     [updateContent (id content) (JS.trim (editedContent st)) (type content);
      console_error "Failed to update content:"],
     normal).
Proof.
  intros Hne Hurl. unfold handleSave.
  rewrite (truthy_trim_nonempty _ Hne). cbn [negb andb].
  destruct (bool_decide (type content = LINK) || bool_decide (type content = VIDEO))
    eqn:Ety.
  - rewrite Hurl; [reflexivity|].
    apply orb_true_iff in Ety as [E|E]; apply bool_decide_eq_true in E; auto.
  - reflexivity.
Qed.

Lemma handleDelete_rejected content st :
  handleDelete rejected content st
  = (withShowDeleteConfirm false (withIsDeleting false st),
     [deleteContent (id content); console_error "Failed to delete content:"],
     normal).
Proof. reflexivity. Qed.

(** What the save handler does on a failed call meets the contract: the
    failure is caught, the message "Failed to save changes. Please try
    again." is shown, and a card that was not saving differs from before in
    the error indication only. *)
Lemma save_failure_meets_contract validURL content st :
  JS.trim (editedContent st) <> [] ->
  (type content = LINK \/ type content = VIDEO ->
   validURL (JS.trim (editedContent st)) = true) ->
  isSaving st = false ->
  failureContract (handleSave validURL rejected content st) st.
Proof.
  intros Hne Hurl Hs. rewrite (handleSave_rejected _ _ _ Hne Hurl).
  unfold failureContract, errorShown, sameButError. cbn.
  rewrite Hs. repeat split. discriminate.
Qed.

(** C2, on the code: a delete whose call fails is caught, but no error
    message is shown. With the confirmation prompt open and the call
    rejected, [handleDelete] logs to the console, takes the deleting flag
    off and closes the prompt: [editError], the one message the card
    renders, is still empty, where the save handler sets one. *)
Theorem delete_failure_shows_no_message :
  handleDelete rejected Examples.note Examples.confirmingDelete
  = (withShowDeleteConfirm false (withIsDeleting false Examples.confirmingDelete),
     [deleteContent (id Examples.note); console_error "Failed to delete content:"],
     normal)
  /\ ~ errorShown (handleDelete rejected Examples.note Examples.confirmingDelete).1.1
  /\ ~ failureContract
         (handleDelete rejected Examples.note Examples.confirmingDelete)
         Examples.confirmingDelete.
Proof.
  split; [apply handleDelete_rejected|].
  rewrite handleDelete_rejected. cbn.
  split; [intros H; by apply H|].
  intros (_ & H & _). by apply H.
Qed.

(** C3: an edit that is empty once trimmed is rejected on the spot: the
    error message is "Content cannot be empty", nothing else changes, and
    the handler has no effect at all, so [updateContent] is not called,
    however the backend would have answered. *)
Theorem empty_content_rejected validURL api content st :
  JS.trim (editedContent st) = [] ->
  handleSave validURL api content st
  = (withEditError (Some "Content cannot be empty"%string) st, [], normal).
Proof.
  intros He. unfold handleSave. by rewrite He.
Qed.

Lemma empty_content_rejected_witness :
  JS.trim (editedContent (Examples.editing "   ")) = []
  /\ handleSave Examples.httpURL fulfilled Examples.note (Examples.editing "   ")
     = (withEditError (Some "Content cannot be empty"%string)
          (Examples.editing "   "), [], normal).
Proof.
  split; [reflexivity|].
  apply (empty_content_rejected Examples.httpURL fulfilled Examples.note
           (Examples.editing "   ")).
  reflexivity.
Defined.

(** A malformed URL on a link is turned away in the same way. *)
Lemma malformed_url_rejected validURL api content st :
  JS.trim (editedContent st) <> [] ->
  type content = LINK \/ type content = VIDEO ->
  validURL (JS.trim (editedContent st)) = false ->
  handleSave validURL api content st
  = (withEditError (Some "Please enter a valid URL"%string) st, [], normal).
Proof.
  intros Hne Hty Hurl. unfold handleSave.
  rewrite (truthy_trim_nonempty _ Hne), Hurl. cbn [negb andb].
  destruct Hty as [-> | ->]; reflexivity.
Qed.

End ContentItemSpec.

(** ** EnhancedNewThreadModal: the payloads of the form *)

Module NewThreadModalSpec.
Import NewThreadModal.

Lemma handleSubmit_blocked props st :
  blocked props st -> handleSubmit props st = [].
Proof.
  unfold blocked, handleSubmit.
  intros [H|[H|[[Ht H]|[Ht H]]]].
  - by rewrite H.
  - rewrite H. by rewrite orb_true_r.
  - rewrite Ht, H. cbn. by destruct (_ || _).
  - rewrite Ht, H. cbn. by destruct (_ || _).
Qed.

Lemma handleSubmit_cases props st :
  handleSubmit props st = []
  \/ exists d, handleSubmit props st = [d]
       /\ wellFormed d /\ payloadType d = threadType props
       /\ ThreadData.title (ThreadData.baseOf d) = JS.trim (title st)
       /\ ThreadData.content (ThreadData.baseOf d) = JS.trim (content st)
       /\ JS.trim (title st) <> [] /\ JS.trim (content st) <> [].
Proof.
  unfold handleSubmit.
  destruct (JS.truthy (JS.trim (title st))) eqn:Et; [|by left].
  destruct (JS.truthy (JS.trim (content st))) eqn:Ec; [|by left].
  apply JSFacts.truthy_true in Et, Ec. cbn [negb orb].
  destruct (threadType props); cbn.
  - destruct (JS.truthy (selectedUnitId st)) eqn:Eu; [|by left].
    apply JSFacts.truthy_true in Eu. right. eexists. split; [reflexivity|].
    by cbn.
  - destruct (JS.truthy (selectedCategory st)) eqn:Eg; [|by left].
    apply JSFacts.truthy_true in Eg. right. eexists. split; [reflexivity|].
    by cbn.
Qed.

(** C9: every payload [handleSubmit] hands to [onSubmit] is of the type of
    the form and satisfies the invariant: a classroom payload has a
    non-empty unit id, a generic payload a non-empty category; its title
    and content are non-empty. Where the title or the content trims to
    nothing, or the unit (classroom) or category (generic) is missing,
    [onSubmit] is not called. *)
Theorem handleSubmit_payload_invariant props st :
  Forall (fun d => wellFormed d
                   /\ payloadType d = threadType props
                   /\ ThreadData.title (ThreadData.baseOf d) <> []
                   /\ ThreadData.content (ThreadData.baseOf d) <> [])
         (handleSubmit props st)
  /\ (blocked props st -> handleSubmit props st = []).
Proof.
  split; [|apply handleSubmit_blocked].
  destruct (handleSubmit_cases props st)
    as [->|(d & -> & Hw & Ht & Hti & Hc & Hnt & Hnc)]; [constructor|].
  repeat constructor; try done; congruence.
Qed.

Lemma handleSubmit_payload_invariant_witness :
  handleSubmit Examples.classroomProps Examples.noUnitForm = [].
Proof.
  apply (handleSubmit_payload_invariant Examples.classroomProps Examples.noUnitForm).
  right. right. left. split; reflexivity.
Defined.

Example handleSubmit_sample :
  handleSubmit Examples.classroomProps Examples.filledForm
  = [ThreadData.classroomThread
       {| ThreadData.title := JS.lit "Why?";
          ThreadData.content := JS.lit "Because.";
          ThreadData.authorId := JS.lit "current-user-id";
          ThreadData.authorName := JS.lit "Current User";
          ThreadData.tags := [] |}
       (Some (JS.lit "room-1")) (JS.lit "Maths") (JS.lit "u1") (JS.lit "Algebra")].
Proof. reflexivity. Qed.

Section Session.
Variable toLowerCase : JS.str -> JS.str.
Variable props : Props.

Lemma step_title st e :
  title (step toLowerCase props st e).1
  = match e with
    | titleChange value => JS.slice0 value TITLE_LIMIT
    | _ => title st
    end.
Proof.
  destruct e; cbn; try reflexivity.
  - unfold handleAddTag.
    destruct (_ && _); [|done]. by destruct (bool_decide _).
  - unfold aiSuggestionStart. by destruct (_ || _).
Qed.

Lemma step_titleOk st e : titleOk st -> titleOk (step toLowerCase props st e).1.
Proof.
  unfold titleOk. rewrite step_title. destruct e; try done.
  intros _. apply JSFacts.slice0_length.
Qed.

Lemma handleSubmit_payloadOk st :
  titleOk st -> Forall payloadOk (handleSubmit props st).
Proof.
  intros Hst.
  destruct (handleSubmit_cases props st)
    as [->|(d & -> & _ & _ & Hti & _)]; [constructor|].
  constructor; [|constructor].
  unfold payloadOk, titleOk in *. rewrite Hti.
  pose proof (JSFacts.trim_length (title st)). lia.
Qed.

Lemma step_payloadOk st e :
  titleOk st -> Forall payloadOk (step toLowerCase props st e).2.
Proof.
  intros Hst. destruct e; cbn; try constructor.
  by apply handleSubmit_payloadOk.
Qed.

Lemma run_titleOk es : forall st,
  titleOk st ->
  titleOk (run toLowerCase props st es).1
  /\ Forall payloadOk (run toLowerCase props st es).2.
Proof.
  induction es as [|e es IH]; intros st Hst; cbn [run].
  - by split.
  - pose proof (step_titleOk st e Hst) as H1.
    pose proof (step_payloadOk st e Hst) as H2.
    destruct (step toLowerCase props st e) as [st1 out1]. cbn in H1, H2.
    destruct (IH st1 H1) as [H3 H4].
    destruct (run toLowerCase props st1 es) as [st2 out2]. cbn in *.
    split; [done|]. by apply Forall_app.
Qed.
End Session.

(** C10: a change of the title stores the first 150 code units of what
    was typed; so after any session from the initial form the title is at
    most 150 long, and so is the title of every payload handed to
    [onSubmit] on the way. *)
Theorem title_within_limit (toLowerCase : JS.str -> JS.str) props es :
  (forall st value,
     title (step toLowerCase props st (titleChange value)).1 = take 150 value)
  /\ (JS.length (title (run toLowerCase props initial es).1) <= 150)%nat
  /\ Forall (fun d => (JS.length (ThreadData.title (ThreadData.baseOf d)) <= 150)%nat)
       (run toLowerCase props initial es).2.
Proof.
  split; [reflexivity|].
  apply (run_titleOk toLowerCase props es initial).
  unfold titleOk, initial, TITLE_LIMIT. cbn. lia.
Qed.

(** Typing 200 characters leaves the first 150 of them. *)
Example title_truncated_sample :
  JS.length
    (title (run JS.asciiLower Examples.classroomProps initial
              [titleChange (replicate 200 97%N)]).1) = 150%nat.
Proof. reflexivity. Qed.

End NewThreadModalSpec.


(** * Further properties *)

(** ** Strings and arrays, continued *)

Module JSMore.
Import JS.

Lemma trimStart_split s :
  exists w, s = w ++ trimStart s /\ Forall (fun c => isWhiteSpace c = true) w.
Proof.
  induction s as [|c s (w & E & Hw)]; [by exists []|]. cbn [trimStart].
  destruct (isWhiteSpace c) eqn:Ec.
  - exists (c :: w). split; [by rewrite E at 1|by constructor].
  - by exists [].
Qed.

Lemma trimStart_clean s : startsWithWs (trimStart s) = false.
Proof.
  induction s as [|c s IH]; [done|]. cbn [trimStart].
  by destruct (isWhiteSpace c) eqn:Ec.
Qed.

Lemma trimStart_id s : startsWithWs s = false -> trimStart s = s.
Proof. destruct s as [|c s]; [done|]. cbn. by intros ->. Qed.

Lemma trimEnd_split s :
  exists w, s = trimEnd s ++ w /\ Forall (fun c => isWhiteSpace c = true) w.
Proof.
  destruct (trimStart_split (rev s)) as (w & E & Hw).
  exists (rev w). split; [|by apply Forall_rev].
  unfold trimEnd. rewrite <- rev_app_distr, <- E. by rewrite rev_involutive.
Qed.

Lemma trimEnd_clean s : endsWithWs (trimEnd s) = false.
Proof.
  unfold endsWithWs, trimEnd. rewrite rev_involutive. apply trimStart_clean.
Qed.

Lemma trimEnd_id s : endsWithWs s = false -> trimEnd s = s.
Proof.
  unfold endsWithWs, trimEnd. intros H.
  rewrite (trimStart_id _ H). apply rev_involutive.
Qed.

Lemma trimEnd_keeps_start s : startsWithWs s = false -> startsWithWs (trimEnd s) = false.
Proof.
  intros Hs. destruct (trimEnd_split s) as (w & E & _).
  destruct (trimEnd s) as [|c t] eqn:Et; [done|].
  rewrite E in Hs. exact Hs.
Qed.

Lemma trim_clean s : startsWithWs (trim s) = false /\ endsWithWs (trim s) = false.
Proof.
  unfold trim. split; [|apply trimEnd_clean].
  apply trimEnd_keeps_start, trimStart_clean.
Qed.

Lemma trim_id s : startsWithWs s = false -> endsWithWs s = false -> trim s = s.
Proof.
  intros H1 H2. unfold trim. rewrite (trimStart_id _ H1). by apply trimEnd_id.
Qed.

Lemma trim_idemp s : trim (trim s) = trim s.
Proof. destruct (trim_clean s). by apply trim_id. Qed.

(** White space around a string does not change what [trim] gives. *)
Lemma trimStart_app_ws w s :
  Forall (fun c => isWhiteSpace c = true) w -> trimStart (w ++ s) = trimStart s.
Proof.
  induction 1 as [|c w Hc _ IH]; [done|]. cbn. by rewrite Hc.
Qed.

Section Uniq.
Context {A : Type} `{EqDecision A}.
Implicit Types (l acc : list A).

Let add (acc : list A) (x : A) : list A :=
  if bool_decide (x ∈ acc) then acc else acc ++ [x].

Lemma fold_add_elem l : forall acc x,
  x ∈ fold_left add l acc <-> x ∈ acc \/ x ∈ l.
Proof.
  induction l as [|y l IH]; intros acc x; cbn [fold_left].
  - rewrite elem_of_nil. tauto.
  - rewrite IH, elem_of_cons. unfold add. case_bool_decide as Hy.
    + split; [tauto|]. intros [?|[->|?]]; tauto.
    + rewrite elem_of_app, list_elem_of_singleton. tauto.
Qed.

Lemma fold_add_NoDup l : forall acc, NoDup acc -> NoDup (fold_left add l acc).
Proof.
  induction l as [|y l IH]; intros acc Hacc; cbn [fold_left]; [done|].
  apply IH. unfold add. case_bool_decide as Hy; [done|].
  apply NoDup_app. split; [done|]. split; [|apply NoDup_singleton].
  intros x Hx ->%list_elem_of_singleton. done.
Qed.

Lemma fold_add_prefix l : forall acc, acc `prefix_of` fold_left add l acc.
Proof.
  induction l as [|y l IH]; intros acc; cbn [fold_left]; [done|].
  etransitivity; [|apply IH]. unfold add. case_bool_decide; [done|].
  by apply prefix_app_r.
Qed.

Lemma uniq_elem l x : x ∈ uniq l <-> x ∈ l.
Proof.
  unfold uniq. change (x ∈ fold_left add l [] <-> x ∈ l).
  rewrite (fold_add_elem l [] x), elem_of_nil. tauto.
Qed.

Lemma uniq_NoDup l : NoDup (uniq l).
Proof. apply (fold_add_NoDup l []). constructor. Qed.

(** From a list without repetition on, the elements already there keep
    their places. *)
Lemma uniq_app_prefix l k : NoDup l -> l `prefix_of` uniq (l ++ k).
Proof.
  intros Hl. unfold uniq. rewrite fold_left_app.
  assert (forall acc, NoDup (acc ++ l) -> fold_left add l acc = acc ++ l) as H.
  { clear Hl. induction l as [|y l IH]; intros acc Hn; cbn [fold_left].
    - by rewrite app_nil_r.
    - assert (y ∉ acc) as Hy.
      { apply NoDup_app in Hn as (_ & Hd & _). intros Hin.
        apply (Hd y Hin). by left. }
      unfold add at 2. rewrite bool_decide_eq_false_2 by done.
      rewrite IH; [by rewrite <- app_assoc|]. by rewrite <- app_assoc. }
  change (l `prefix_of` fold_left add k (fold_left add l [])).
  rewrite (H [] Hl). apply (fold_add_prefix k l).
Qed.
End Uniq.

Lemma split_ws_nonempty s : forall cur,
  cur <> [] -> (1 <= wordsOf (split_ws false cur s))%nat.
Proof.
  unfold wordsOf.
  induction s as [|c s IH]; intros cur Hcur; cbn [split_ws].
  - destruct cur; [done|]. cbn. lia.
  - destruct (isWhiteSpace c).
    + destruct cur; [done|]. cbn. lia.
    + apply IH. by destruct cur.
Qed.

Lemma split_ws_bound s : forall b cur,
  (wordsOf (split_ws b cur s)
   <= (if bool_decide (cur = []) then 0 else 1) + length s)%nat.
Proof.
  unfold wordsOf, length.
  induction s as [|c s IH]; intros b cur; cbn [split_ws].
  - destruct cur; cbn; lia.
  - destruct (isWhiteSpace c).
    + destruct b.
      * specialize (IH true cur). cbn [List.length]. lia.
      * specialize (IH true []). rewrite bool_decide_eq_true_2 in IH by done.
        destruct cur; cbn in *; lia.
    + specialize (IH false (cur ++ [c])).
      rewrite bool_decide_eq_false_2 in IH by (by destruct cur).
      cbn [List.length]. case_bool_decide; lia.
Qed.

End JSMore.

Module StoreMore.
Section StoreMore.
Context {A : Type}.
Implicit Types (l : list A) (h : gmap nat (list A)) (r : Store.ref).

Lemma filter_and (p1 p2 : A -> bool) l :
  List.filter p2 (List.filter p1 l) = List.filter (fun x => p1 x && p2 x) l.
Proof.
  induction l as [|x l IH]; [done|]. cbn [List.filter].
  destruct (p1 x); cbn [andb List.filter]; [|done].
  destruct (p2 x); by rewrite IH.
Qed.

Lemma filter_all (p : A -> bool) l :
  Forall (fun x => p x = true) l -> List.filter p l = l.
Proof.
  induction 1 as [|x l Hx _ IH]; [done|]. cbn. by rewrite Hx, IH.
Qed.

Lemma filter_same (p p' : A -> bool) l :
  (forall x, p x = p' x) -> List.filter p l = List.filter p' l.
Proof.
  intros H. induction l as [|x l IH]; [done|]. cbn. by rewrite H, IH.
Qed.

Lemma filter_same_in (p p' : A -> bool) l :
  (forall x, x ∈ l -> p x = p' x) -> List.filter p l = List.filter p' l.
Proof.
  induction l as [|x l IH]; intros H; [done|]. cbn.
  rewrite (H x) by (by left). rewrite IH; [done|].
  intros y Hy. apply H. by right.
Qed.

Lemma filter_elem (p : A -> bool) l x :
  x ∈ List.filter p l <-> x ∈ l /\ p x = true.
Proof. rewrite !list_elem_of_In. apply filter_In. Qed.

Lemma filter_NoDup (p : A -> bool) l : NoDup l -> NoDup (List.filter p l).
Proof.
  induction 1 as [|x l Hx Hl IH]; cbn; [constructor|].
  destruct (p x); [|done]. constructor; [|done].
  rewrite filter_elem. tauto.
Qed.

(** Sorting a list that is in order already changes nothing. *)
Lemma sorted_by_id (key : A -> Z) (cmp : A -> A -> Z) l :
  (forall a b, cmp a b = key b - key a) ->
  StronglySorted (fun a b => key b <= key a) l ->
  Store.sorted_by cmp l = l.
Proof.
  intros Hcmp. induction 1 as [|x l Hs IH Hx]; [done|].
  cbn [Store.sorted_by]. rewrite IH.
  destruct Hx as [|y l Hy _]; [done|]. cbn [Store.insert_by].
  rewrite Hcmp. destruct (Z.leb_spec (key y - key x) 0); [done|lia].
Qed.

(** A pipeline that has copied, then the sort: the array returned is new,
    and every array of the old store is as it was. *)
Lemma stage_sort_frame f g (cmp : A -> A -> JS.Num) r h l :
  Store.stage_spec f g true -> h !! r = Some l ->
  exists r' h',
    Store.bind (f r) (fun x => Store.bind (Store.Array_sort cmp x)
                                 (fun _ => Store.ret x)) h = Some (r', h')
    /\ h !! r' = None
    /\ h ⊆ h'.
Proof.
  intros Hf Hr. destruct (Hf r h l Hr) as (r1 & h1 & E1 & L1 & S1 & F1).
  exists r1, (<[r1 := Store.sorted_by (JS.SortCompare cmp) (g l)]> h1).
  rewrite (StoreFacts.bind_run _ _ _ _ _ E1).
  rewrite (StoreFacts.bind_run _ _ _ _ _ (StoreFacts.Array_sort_run cmp _ _ _ L1)).
  split; [reflexivity|]. split; [exact F1|].
  apply map_subseteq_spec. intros k x Hk.
  destruct (decide (k = r1)) as [->|Hne].
  - pose proof (eq_trans (eq_sym F1) Hk). discriminate.
  - rewrite lookup_insert_ne by done. by eapply lookup_weaken.
Qed.

End StoreMore.
End StoreMore.

(** ** ThreadsList, continued *)

Module ThreadsListMore.
Import ThreadsList.

Section Engine.
Variable toLowerCase : JS.str -> JS.str.

Lemma cond_filter (c : bool) (m : Thread -> bool) l :
  (if c then List.filter m l else l) = List.filter (fun t => negb c || m t) l.
Proof.
  destruct c; cbn [negb orb]; [done|].
  symmetry. apply StoreMore.filter_all. by apply Forall_forall.
Qed.

Lemma filteredList_passes q l :
  filteredList toLowerCase q l = List.filter (passes toLowerCase q) l.
Proof.
  unfold filteredList, categoryList, unitList, searchList.
  rewrite !cond_filter.
  assert (forall k, typeList q k
            = List.filter (fun t => match selectedThreadType q with
                                    | Some sel => matchesType sel t
                                    | None => true
                                    end) k) as ->.
  { intros k. unfold typeList. destruct (selectedThreadType q); [done|].
    symmetry. apply StoreMore.filter_all. by apply Forall_forall. }
  rewrite !StoreMore.filter_and. apply StoreMore.filter_same.
  intros t. unfold passes. by rewrite !andb_assoc.
Qed.

(** The contents of the array [filteredThreads] returns. *)
Lemma filteredThreads_contents q r h l :
  h !! r = Some l ->
  exists r' h',
    filteredThreads toLowerCase q r h = Some (r', h')
    /\ h' !! r' = Some (Store.sorted_by (JS.SortCompare (compareFn (sortBy q)))
                         (List.filter (passes toLowerCase q) l)).
Proof.
  intros Hr.
  destruct (ThreadsListSpec.filteredThreads_run toLowerCase q r h l Hr)
    as (r' & h' & E & L & _).
  exists r', h'. by rewrite <- filteredList_passes.
Qed.

Lemma sorted_elem q (l : list Thread) t :
  t ∈ Store.sorted_by (JS.SortCompare (compareFn (sortBy q))) l <-> t ∈ l.
Proof. by rewrite StoreFacts.sorted_by_perm. Qed.

Lemma anyFilter_false_passes q t : anyFilter q = false -> passes toLowerCase q t = true.
Proof.
  unfold anyFilter, passes. rewrite !orb_false_iff. intros [[[-> Ht] ->] ->].
  apply bool_decide_eq_false in Ht.
  destruct (selectedThreadType q); [by destruct Ht|done].
Qed.

End Engine.

(** With some filter on, [filteredThreads] returns an array that did not
    exist before (so not the [threads] array), and every array of the store,
    [threads] included, holds what it held. *)
Theorem filtering_leaves_store (toLowerCase : JS.str -> JS.str) q r h L :
  h !! r = Some L ->
  anyFilter q = true ->
  exists r' h',
    filteredThreads toLowerCase q r h = Some (r', h')
    /\ h !! r' = None
    /\ r' <> r
    /\ h' !! r = Some L
    /\ h ⊆ h'.
Proof.
  intros Hr Hq.
  pose proof (ThreadsListSpec.filterStages_spec toLowerCase q) as Hs.
  rewrite Hq in Hs.
  destruct (StoreMore.stage_sort_frame _ _ (compareFn (sortBy q)) r h L Hs Hr)
    as (r' & h' & E & Hnew & Hsub).
  exists r', h'. rewrite ThreadsListSpec.filteredThreads_stages.
  split; [exact E|]. split; [exact Hnew|].
  split; [intros ->; pose proof (eq_trans (eq_sym Hnew) Hr); discriminate|].
  split; [by eapply lookup_weaken|exact Hsub].
Qed.

Lemma filtering_leaves_store_witness :
  exists r' h',
    filteredThreads JS.asciiLower Examples.unitU1 0%nat Examples.store = Some (r', h')
    /\ Examples.store !! r' = None
    /\ r' <> 0%nat
    /\ h' !! 0%nat = Some Examples.threads
    /\ Examples.store ⊆ h'.
Proof.
  apply (filtering_leaves_store JS.asciiLower Examples.unitU1 0%nat
           Examples.store Examples.threads); reflexivity.
Defined.

(** With no filter on, no copy is made: the array returned is the array
    passed in, which now holds a reordering of the records it held; where
    every sort key of the list is a number (every date valid), largest sort
    key first. No other array of the store is touched. *)
Theorem no_filter_sorts_in_place (toLowerCase : JS.str -> JS.str) q r h L :
  h !! r = Some L ->
  anyFilter q = false ->
  exists out,
    filteredThreads toLowerCase q r h = Some (r, <[r := out]> h)
    /\ out ≡ₚ L
    /\ (Forall (fun t => sortKeyOf (sortBy q) t <> JS.NaN) L ->
        nonIncreasingNum (sortKeyOf (sortBy q) <$> out)).
Proof.
  intros Hr Hq. exists (Store.sorted_by (JS.SortCompare (compareFn (sortBy q))) L).
  split; [by apply ThreadsListSpec.filteredThreads_in_place|].
  split; [apply StoreFacts.sorted_by_perm|].
  apply ThreadsListSpec.sorted_nonIncreasingNum.
Qed.

Lemma no_filter_sorts_in_place_witness :
  exists out,
    filteredThreads JS.asciiLower Examples.blankSearch 0%nat Examples.store
    = Some (0%nat, <[0%nat := out]> Examples.store)
    /\ out ≡ₚ Examples.threads
    /\ nonIncreasingNum (sortKeyOf recent <$> out).
Proof.
  destruct (no_filter_sorts_in_place JS.asciiLower Examples.blankSearch 0%nat
              Examples.store Examples.threads eq_refl eq_refl)
    as (out & E & Hp & Hs).
  exists out. split; [exact E|]. split; [exact Hp|].
  apply Hs. repeat constructor; discriminate.
Defined.

(** The filters that are on combine by "and": a thread is in the result
    exactly when it is in the list and passes the search (if the trimmed
    search string is not empty), the type filter, the unit filter and the
    category filter (each if not on "all"). The result holds these threads
    as often as the list does. *)
Theorem result_is_what_passes (toLowerCase : JS.str -> JS.str) q r h L :
  h !! r = Some L ->
  exists r' h' out,
    filteredThreads toLowerCase q r h = Some (r', h')
    /\ h' !! r' = Some out
    /\ out ≡ₚ List.filter (passes toLowerCase q) L
    /\ forall t, t ∈ out <-> t ∈ L /\ passes toLowerCase q t = true.
Proof.
  intros Hr.
  destruct (filteredThreads_contents toLowerCase q r h L Hr) as (r' & h' & E & Hout).
  eexists r', h', _. split; [exact E|]. split; [exact Hout|].
  split; [apply StoreFacts.sorted_by_perm|].
  intros t. by rewrite sorted_elem, StoreMore.filter_elem.
Qed.

Lemma result_is_what_passes_witness :
  exists r' h' out,
    filteredThreads JS.asciiLower Examples.genericOnly 0%nat Examples.store
    = Some (r', h')
    /\ h' !! r' = Some out
    /\ out ≡ₚ List.filter (passes JS.asciiLower Examples.genericOnly) Examples.threads
    /\ forall t, t ∈ out <->
                 t ∈ Examples.threads
                 /\ passes JS.asciiLower Examples.genericOnly t = true.
Proof.
  apply (result_is_what_passes JS.asciiLower Examples.genericOnly 0%nat
           Examples.store Examples.threads); reflexivity.
Defined.

(** The unit filter keeps classroom threads only and the category filter
    generic threads only: with both on, the result is empty, whatever the
    list. *)
Theorem unit_and_category_give_nothing (toLowerCase : JS.str -> JS.str) q r h L :
  h !! r = Some L ->
  selectedUnit q <> all ->
  selectedCategory q <> all ->
  exists r' h',
    filteredThreads toLowerCase q r h = Some (r', h')
    /\ h' !! r' = Some [].
Proof.
  intros Hr Hu Hc.
  destruct (filteredThreads_contents toLowerCase q r h L Hr) as (r' & h' & E & Hout).
  exists r', h'. split; [exact E|]. rewrite Hout. f_equal.
  assert (forall t, passes toLowerCase q t = false) as Hnone.
  { intros t. unfold passes, matchesUnit, matchesCategory.
    rewrite !(bool_decide_eq_true_2 (_ <> all)) by done. cbn [negb orb].
    destruct (threadType t); cbn; by rewrite ?andb_false_r. }
  clear Hr Hout. induction L as [|t L' IH]; [done|].
  cbn [List.filter]. by rewrite Hnone.
Qed.

Lemma unit_and_category_give_nothing_witness :
  exists r' h',
    filteredThreads JS.asciiLower Examples.unitAndCategory 0%nat Examples.store
    = Some (r', h')
    /\ h' !! r' = Some [].
Proof.
  apply (unit_and_category_give_nothing JS.asciiLower Examples.unitAndCategory
           0%nat Examples.store Examples.threads).
  - reflexivity.
  - vm_compute. discriminate.
  - vm_compute. discriminate.
Defined.

(** The sort is stable in the result: where every sort key of the list
    is a number (every date valid), the threads that share a value [v] of the
    sort key come in the order they have in the list. *)
Theorem ties_keep_list_order (toLowerCase : JS.str -> JS.str) q r h L :
  h !! r = Some L ->
  Forall (fun t => sortKeyOf (sortBy q) t <> JS.NaN) L ->
  exists r' h' out,
    filteredThreads toLowerCase q r h = Some (r', h')
    /\ h' !! r' = Some out
    /\ forall v : Z,
         List.filter (fun t => bool_decide (sortKeyOf (sortBy q) t = JS.int v)) out
         = List.filter (fun t => passes toLowerCase q t
                                 && bool_decide (sortKeyOf (sortBy q) t = JS.int v)) L.
Proof.
  intros Hr HL.
  destruct (filteredThreads_contents toLowerCase q r h L Hr) as (r' & h' & E & Hout).
  eexists r', h', _. split; [exact E|]. split; [exact Hout|].
  intros v.
  assert (forall t, bool_decide (sortKeyOf (sortBy q) t = JS.int v)
                    = (JS.toZ (sortKeyOf (sortBy q) t) =? v)
                      && bool_decide (sortKeyOf (sortBy q) t <> JS.NaN)) as Hkey.
  { intros t. destruct (sortKeyOf (sortBy q) t) as [|z]; cbn.
    - by rewrite andb_false_r.
    - rewrite andb_true_r. destruct (Z.eqb_spec z v) as [->|Hne].
      + by apply bool_decide_eq_true.
      + apply bool_decide_eq_false. congruence. }
  assert (Forall (fun t => sortKeyOf (sortBy q) t <> JS.NaN)
            (List.filter (passes toLowerCase q) L)) as HF.
  { apply Forall_forall. intros t [Ht _]%StoreMore.filter_elem.
    rewrite Forall_forall in HL. by apply HL. }
  rewrite (ThreadsListSpec.sorted_by_numbers _ _ HF).
  rewrite (StoreMore.filter_same_in _
             (fun t => JS.toZ (sortKeyOf (sortBy q) t) =? v)).
  2: { intros t Ht. rewrite StoreFacts.sorted_by_perm in Ht.
       rewrite Forall_forall in HF. rewrite Hkey.
       rewrite (bool_decide_eq_true_2 _ (HF t Ht)). by rewrite andb_true_r. }
  rewrite (StoreFacts.sorted_by_stable (fun t => JS.toZ (sortKeyOf (sortBy q) t)) _
             (fun _ _ => eq_refl)).
  rewrite StoreMore.filter_and. apply StoreMore.filter_same_in.
  intros t Ht. rewrite Hkey. rewrite Forall_forall in HL.
  rewrite (bool_decide_eq_true_2 _ (HL t Ht)). by rewrite andb_true_r.
Qed.

(** On the list with two threads of five replies, sorted by replies, the
    two come after the thread of nine replies and in the order of the
    list. *)
Lemma ties_keep_list_order_witness :
  exists r' h' out,
    filteredThreads JS.asciiLower (Examples.noFilter replies) 0%nat Examples.tiedStore
    = Some (r', h')
    /\ h' !! r' = Some out
    /\ List.filter (fun t => bool_decide (sortKeyOf replies t = JS.int 5)) out
       = [Examples.algebra; Examples.seminar].
Proof.
  destruct (ties_keep_list_order JS.asciiLower (Examples.noFilter replies) 0%nat
              Examples.tiedStore Examples.tiedThreads eq_refl)
    as (r' & h' & out & E & Hout & Hties).
  - repeat constructor; discriminate.
  - exists r', h', out. split; [exact E|]. split; [exact Hout|].
    etransitivity; [exact (Hties 5)|reflexivity].
Defined.

Example tied_sample :
  Store.sorted_by (JS.SortCompare (compareFn replies)) Examples.tiedThreads
  = [Examples.limits; Examples.algebra; Examples.seminar].
Proof. reflexivity. Qed.

(** Running [filteredThreads] again, with the same query, on the array it
    returned gives the same list, where every sort key of the list is a
    number (every date valid): the recomputation is idempotent. *)
Theorem rerun_gives_same_list (toLowerCase : JS.str -> JS.str) q r h L :
  h !! r = Some L ->
  Forall (fun t => sortKeyOf (sortBy q) t <> JS.NaN) L ->
  exists r1 h1 out,
    filteredThreads toLowerCase q r h = Some (r1, h1)
    /\ h1 !! r1 = Some out
    /\ exists r2 h2,
         filteredThreads toLowerCase q r1 h1 = Some (r2, h2)
         /\ h2 !! r2 = Some out.
Proof.
  intros Hr HL.
  destruct (filteredThreads_contents toLowerCase q r h L Hr) as (r1 & h1 & E1 & Hout).
  eexists r1, h1, _. split; [exact E1|]. split; [exact Hout|].
  destruct (filteredThreads_contents toLowerCase q r1 h1 _ Hout) as (r2 & h2 & E2 & Hout2).
  exists r2, h2. split; [exact E2|]. rewrite Hout2. f_equal.
  assert (Forall (fun t => sortKeyOf (sortBy q) t <> JS.NaN)
            (List.filter (passes toLowerCase q) L)) as HF.
  { apply Forall_forall. intros t [Ht _]%StoreMore.filter_elem.
    rewrite Forall_forall in HL. by apply HL. }
  rewrite (StoreMore.filter_all (passes toLowerCase q)).
  - rewrite !(ThreadsListSpec.sorted_by_numbers _ _ HF).
    rewrite ThreadsListSpec.sorted_by_numbers.
    + apply (StoreMore.sorted_by_id (fun t => JS.toZ (sortKeyOf (sortBy q) t)));
        [done|].
      by apply (StoreFacts.sorted_by_sorted
                  (fun t => JS.toZ (sortKeyOf (sortBy q) t))).
    + apply Forall_forall. intros t Ht. rewrite StoreFacts.sorted_by_perm in Ht.
      rewrite Forall_forall in HF. by apply HF.
  - apply Forall_forall. intros t Ht. rewrite sorted_elem in Ht.
    by apply StoreMore.filter_elem in Ht as [_ ?].
Qed.

(** The classroom threads of the sample list, two of them, most recent
    first, and the same again on the second run. *)
Lemma rerun_gives_same_list_witness :
  exists r1 h1 out,
    filteredThreads JS.asciiLower Examples.classroomOnly 0%nat Examples.store
    = Some (r1, h1)
    /\ h1 !! r1 = Some out
    /\ exists r2 h2,
         filteredThreads JS.asciiLower Examples.classroomOnly r1 h1 = Some (r2, h2)
         /\ h2 !! r2 = Some out.
Proof.
  apply (rerun_gives_same_list JS.asciiLower Examples.classroomOnly 0%nat
           Examples.store Examples.threads); [reflexivity|].
  repeat constructor; discriminate.
Defined.

Example classroomOnly_sample :
  Store.sorted_by (JS.SortCompare (compareFn recent))
    (List.filter (passes JS.asciiLower Examples.classroomOnly) Examples.threads)
  = [Examples.limits; Examples.algebra].
Proof. reflexivity. Qed.

(** With a thread type selected every thread of the result is of that
    type; with a category selected every thread of the result is a generic
    thread of that category. *)
Theorem type_and_category_filters (toLowerCase : JS.str -> JS.str) q r h L :
  h !! r = Some L ->
  exists r' h' out,
    filteredThreads toLowerCase q r h = Some (r', h')
    /\ h' !! r' = Some out
    /\ (forall ty, selectedThreadType q = Some ty ->
                   Forall (fun t => threadType t = ty) out)
    /\ (selectedCategory q <> all ->
        Forall (fun t => threadType t = generic
                         /\ category t = Some (selectedCategory q)) out).
Proof.
  intros Hr.
  destruct (filteredThreads_contents toLowerCase q r h L Hr) as (r' & h' & E & Hout).
  eexists r', h', _. split; [exact E|]. split; [exact Hout|].
  split.
  - intros ty Hty. apply Forall_forall. intros t Ht. rewrite sorted_elem in Ht.
    apply StoreMore.filter_elem in Ht as [_ Hp]. unfold passes in Hp.
    rewrite Hty in Hp. rewrite !andb_true_iff in Hp.
    destruct Hp as [[[_ Hp] _] _]. by apply bool_decide_eq_true in Hp.
  - intros Hc. apply Forall_forall. intros t Ht. rewrite sorted_elem in Ht.
    apply StoreMore.filter_elem in Ht as [_ Hp]. unfold passes in Hp.
    rewrite !andb_true_iff in Hp. destruct Hp as [_ Hp].
    rewrite (bool_decide_eq_true_2 _ Hc) in Hp. cbn [negb orb] in Hp.
    unfold matchesCategory in Hp.
    by rewrite andb_true_iff, !bool_decide_eq_true in Hp.
Qed.

Lemma type_and_category_filters_witness :
  exists r' h' out,
    filteredThreads JS.asciiLower Examples.genericOnly 0%nat Examples.store
    = Some (r', h')
    /\ h' !! r' = Some out
    /\ (forall ty, selectedThreadType Examples.genericOnly = Some ty ->
                   Forall (fun t => threadType t = ty) out)
    /\ (selectedCategory Examples.genericOnly <> all ->
        Forall (fun t => threadType t = generic
                         /\ category t = Some (selectedCategory Examples.genericOnly))
               out).
Proof.
  apply (type_and_category_filters JS.asciiLower Examples.genericOnly 0%nat
           Examples.store Examples.threads); reflexivity.
Defined.

Example genericOnly_sample :
  Store.sorted_by (JS.SortCompare (compareFn replies))
    (List.filter (passes JS.asciiLower Examples.genericOnly) Examples.threads)
  = [Examples.welcome].
Proof. reflexivity. Qed.

(** [availableCategories] lists each category once, and lists exactly the
    categories of the generic threads of the list. *)
Theorem availableCategories_exact (threads : list Thread) :
  NoDup (availableCategories threads)
  /\ forall c, c ∈ availableCategories threads <->
               exists t, t ∈ threads /\ threadType t = generic /\ category t = c.
Proof.
  unfold availableCategories. split; [apply JSMore.uniq_NoDup|].
  intros c. rewrite JSMore.uniq_elem, list_elem_of_In, in_map_iff.
  split.
  - intros (t & <- & Ht). apply list_elem_of_In, StoreMore.filter_elem in Ht as [Ht Hg].
    apply bool_decide_eq_true in Hg. by exists t.
  - intros (t & Ht & Hg & <-). exists t. split; [done|].
    apply list_elem_of_In, StoreMore.filter_elem. split; [done|].
    by apply bool_decide_eq_true.
Qed.

(** "Clear all" switches every filter off and keeps the sort key: the
    filter bar goes away and the result holds every thread of the list. *)
Theorem clearAll_shows_every_thread (toLowerCase : JS.str -> JS.str) q r h L :
  h !! r = Some L ->
  (forall showFilters, activeFiltersShown showFilters (clearAll q) = false)
  /\ sortBy (clearAll q) = sortBy q
  /\ exists r' h' out,
       filteredThreads toLowerCase (clearAll q) r h = Some (r', h')
       /\ h' !! r' = Some out
       /\ out ≡ₚ L.
Proof.
  intros Hr. split; [by intros []|]. split; [reflexivity|].
  destruct (filteredThreads_contents toLowerCase (clearAll q) r h L Hr)
    as (r' & h' & E & Hout).
  eexists r', h', _. split; [exact E|]. split; [exact Hout|].
  rewrite StoreFacts.sorted_by_perm.
  rewrite StoreMore.filter_all; [done|].
  apply Forall_forall. intros t _. by apply anyFilter_false_passes.
Qed.

Lemma clearAll_shows_every_thread_witness :
  (forall showFilters,
     activeFiltersShown showFilters (clearAll Examples.unitAndCategory) = false)
  /\ sortBy (clearAll Examples.unitAndCategory) = sortBy Examples.unitAndCategory
  /\ exists r' h' out,
       filteredThreads JS.asciiLower (clearAll Examples.unitAndCategory) 0%nat
         Examples.store = Some (r', h')
       /\ h' !! r' = Some out
       /\ out ≡ₚ Examples.threads.
Proof.
  apply (clearAll_shows_every_thread JS.asciiLower Examples.unitAndCategory 0%nat
           Examples.store Examples.threads); reflexivity.
Defined.



(** Where the filter controls are rendered, the "Active filters" bar,
    with its "Clear all" button, is rendered whenever a filter is on. *)
Theorem filter_on_shows_bar q :
  anyFilter q = true -> activeFiltersShown true q = true.
Proof.
  unfold anyFilter, activeFiltersShown. cbn [andb]. rewrite !orb_true_iff.
  intros [[[Hs|?]|?]|?]; auto.
  left. left. left. destruct (searchQuery q); [discriminate Hs|done].
Qed.

Lemma filter_on_shows_bar_witness :
  activeFiltersShown true Examples.unitU1 = true.
Proof. apply (filter_on_shows_bar Examples.unitU1). reflexivity. Defined.

End ThreadsListMore.

(** ** ContentItem, continued *)

Module ContentItemMore.
Import ContentItem.

(** Whether [handleSave] gets as far as the call. *)
Lemma handleSave_empty validURL api content st :
  JS.trim (editedContent st) = [] ->
  handleSave validURL api content st
  = (withEditError (Some "Content cannot be empty"%string) st, [], normal).
Proof. intros He. unfold handleSave. by rewrite He. Qed.

Lemma handleSave_invalid validURL api content st :
  JS.trim (editedContent st) <> [] ->
  type content = LINK \/ type content = VIDEO ->
  validURL (JS.trim (editedContent st)) = false ->
  handleSave validURL api content st
  = (withEditError (Some "Please enter a valid URL"%string) st, [], normal).
Proof.
  intros Hne Hty Hurl. unfold handleSave.
  rewrite (ContentItemSpec.truthy_trim_nonempty _ Hne), Hurl. cbn [negb andb].
  destruct Hty as [-> | ->]; reflexivity.
Qed.

Lemma handleSave_fulfilled validURL content st :
  JS.trim (editedContent st) <> [] ->
  (type content = LINK \/ type content = VIDEO ->
   validURL (JS.trim (editedContent st)) = true) ->
  handleSave validURL fulfilled content st
  = (withIsEditing false (withSaveSuccess true
       (withEditError None (withIsSaving false st))),
     [updateContent (id content) (JS.trim (editedContent st)) (type content);
      setTimeout [clearSaveSuccess; onRefresh] 1500],
     normal).
Proof.
  intros Hne Hurl. unfold handleSave.
  rewrite (ContentItemSpec.truthy_trim_nonempty _ Hne). cbn [negb andb].
  destruct (bool_decide (type content = LINK) || bool_decide (type content = VIDEO))
    eqn:Ety.
  - rewrite Hurl; [reflexivity|].
    apply orb_true_iff in Ety as [E|E]; apply bool_decide_eq_true in E; auto.
  - reflexivity.
Qed.

(** The four ways a save can go. *)
Lemma handleSave_cases validURL api content st :
  let sent := updateContent (id content) (JS.trim (editedContent st)) (type content) in
  handleSave validURL api content st
  = (withEditError (Some "Content cannot be empty"%string) st, [], normal)
  \/ handleSave validURL api content st
     = (withEditError (Some "Please enter a valid URL"%string) st, [], normal)
  \/ (JS.trim (editedContent st) <> []
      /\ (type content = LINK \/ type content = VIDEO ->
          validURL (JS.trim (editedContent st)) = true)
      /\ (handleSave validURL api content st
          = (withIsEditing false (withSaveSuccess true
               (withEditError None (withIsSaving false st))),
             [sent; setTimeout [clearSaveSuccess; onRefresh] 1500], normal)
          \/ handleSave validURL api content st
             = (withEditError (Some "Failed to save changes. Please try again."%string)
                  (withIsSaving false st),
                [sent; console_error "Failed to update content:"], normal))).
Proof.
  cbv zeta.
  destruct (decide (JS.trim (editedContent st) = [])) as [He|Hne].
  { left. by apply handleSave_empty. }
  destruct (decide (type content = LINK \/ type content = VIDEO)) as [Hty|Hty].
  - destruct (validURL (JS.trim (editedContent st))) eqn:Hurl.
    + right. right. split; [done|]. split; [done|].
      destruct api; [left; by apply handleSave_fulfilled
                    |right; by apply ContentItemSpec.handleSave_rejected].
    + right. left. by apply handleSave_invalid.
  - right. right. split; [done|]. split; [done|].
    destruct api; [left; by apply handleSave_fulfilled
                  |right; by apply ContentItemSpec.handleSave_rejected].
Qed.

(** A save that passes validation and whose call succeeds: the trimmed
    text is sent once, with the id and type of the item; the card leaves
    edit mode with the success banner on, no error and the saving flag off;
    one timer is set, for 1500 ms, that takes the banner off and refreshes.
    Nothing else changes. *)
Theorem save_success_outcome validURL content st :
  JS.trim (editedContent st) <> [] ->
  (type content = LINK \/ type content = VIDEO ->
   validURL (JS.trim (editedContent st)) = true) ->
  handleSave validURL fulfilled content st
  = (withIsEditing false (withSaveSuccess true
       (withEditError None (withIsSaving false st))),
     [updateContent (id content) (JS.trim (editedContent st)) (type content);
      setTimeout [clearSaveSuccess; onRefresh] 1500],
     normal).
Proof. apply handleSave_fulfilled. Qed.

Lemma save_success_outcome_witness :
  handleSave Examples.httpURL fulfilled Examples.note (Examples.editing " New text ")
  = (withIsEditing false (withSaveSuccess true
       (withEditError None (withIsSaving false (Examples.editing " New text ")))),
     [updateContent (JS.lit "c1") (JS.lit "New text") NOTE;
      setTimeout [clearSaveSuccess; onRefresh] 1500],
     normal).
Proof.
  apply (save_success_outcome Examples.httpURL Examples.note
           (Examples.editing " New text ")).
  - vm_compute. discriminate.
  - intros [H|H]; discriminate H.
Defined.

(** However a save goes (rejected by validation, call fulfilled, call
    rejected), the handler completes without a throw, and a card that was
    not saving is not saving afterwards: the Save button is enabled again on
    every path. *)
Theorem save_always_settles validURL api content st :
  isSaving st = false ->
  (handleSave validURL api content st).2 = normal
  /\ isSaving (handleSave validURL api content st).1.1 = false.
Proof.
  intros Hs.
  destruct (handleSave_cases validURL api content st)
    as [E|[E|(_ & _ & [E|E])]]; rewrite E; by cbn.
Qed.

Lemma save_always_settles_witness :
  (handleSave Examples.httpURL rejected Examples.link
     (Examples.editing "http://b.example")).2 = normal
  /\ isSaving (handleSave Examples.httpURL rejected Examples.link
                 (Examples.editing "http://b.example")).1.1 = false.
Proof.
  apply (save_always_settles Examples.httpURL rejected Examples.link
           (Examples.editing "http://b.example")).
  reflexivity.
Defined.

(** What [handleSave] sends: at most one [updateContent] call, never a
    [deleteContent]; the call carries the id and type of the item and the
    trimmed text, which is not empty and, for a link or a video, is a URL the
    parser accepts. *)
Theorem save_sends_validated_content validURL api content st :
  (List.length (updateCalls (handleSave validURL api content st).1.2) <= 1)%nat
  /\ Forall (fun e => forall i, e <> deleteContent i)
       (handleSave validURL api content st).1.2
  /\ Forall (fun '(i, c, t) =>
               i = id content /\ t = type content
               /\ c = JS.trim (editedContent st) /\ c <> []
               /\ (t = LINK \/ t = VIDEO -> validURL c = true))
       (updateCalls (handleSave validURL api content st).1.2).
Proof.
  destruct (handleSave_cases validURL api content st)
    as [E|[E|(Hne & Hurl & [E|E])]]; rewrite E; cbn;
    (split; [lia|]); (split; [by repeat constructor|]);
    by repeat constructor.
Qed.

(** A link or video whose trimmed text the URL parser refuses is turned
    away like an empty one: the message is "Please enter a valid URL",
    nothing else changes and no call is made. A note is never checked. *)
Theorem invalid_url_blocks_save validURL api content st :
  JS.trim (editedContent st) <> [] ->
  validURL (JS.trim (editedContent st)) = false ->
  (type content = LINK \/ type content = VIDEO ->
   handleSave validURL api content st
   = (withEditError (Some "Please enter a valid URL"%string) st, [], normal))
  /\ (type content = NOTE ->
      updateCalls (handleSave validURL api content st).1.2
      = [(id content, JS.trim (editedContent st), NOTE)]).
Proof.
  intros Hne Hurl. split.
  - intros Hty. by apply handleSave_invalid.
  - intros Hty.
    assert (type content = LINK \/ type content = VIDEO ->
            validURL (JS.trim (editedContent st)) = true) as Hok
      by (rewrite Hty; intros [?|?]; discriminate).
    destruct api.
    + rewrite (handleSave_fulfilled _ _ _ Hne Hok). cbn. by rewrite Hty.
    + rewrite (ContentItemSpec.handleSave_rejected _ _ _ Hne Hok). cbn. by rewrite Hty.
Qed.

Lemma invalid_url_blocks_save_witness :
  handleSave Examples.httpURL fulfilled Examples.link (Examples.editing "not a url")
  = (withEditError (Some "Please enter a valid URL"%string)
       (Examples.editing "not a url"), [], normal).
Proof.
  apply (invalid_url_blocks_save Examples.httpURL fulfilled Examples.link
           (Examples.editing "not a url")).
  - vm_compute. discriminate.
  - reflexivity.
  - left. reflexivity.
Defined.

(** A delete issues exactly one call, for the id of the item, and never
    throws. If the call succeeds the card ends in its terminal state
    (deleted, success shown, still marked as deleting) and one timer is set,
    for 500 ms, that refreshes; nothing else changes. *)
Theorem delete_outcome api content st :
  (handleDelete api content st).2 = normal
  /\ List.filter isApiCall (handleDelete api content st).1.2
     = [deleteContent (id content)]
  /\ handleDelete fulfilled content st
     = (withIsDeleted true (withDeleteSuccess true (withIsDeleting true st)),
        [deleteContent (id content); setTimeout [onRefresh] 500],
        normal).
Proof. by destruct api. Qed.

Lemma typing_run values : forall st,
  exists buffer, typing values st = (withEditedContent buffer st, [], normal).
Proof.
  induction values as [|v values IH]; intros st.
  - exists (editedContent st). by destruct st.
  - destruct (IH (withEditedContent v st)) as [buffer E].
    exists buffer.
    change (typing (v :: values)) with (seq (setEditedContent v) (typing values)).
    unfold seq, setEditedContent, set. by rewrite E.
Qed.

(** Cancelling an edit throws away what was typed: after Edit, any
    number of changes of the field and Cancel, the edit buffer holds the
    content of the item again, the card is out of edit mode with no error,
    nothing was sent, and the other cells are as before (the success banner
    is off). *)
Theorem cancel_edit_discards content st (values : list JS.str) :
  (handleEdit content ;; typing values ;; handleCancelEdit content)%handler st
  = (withSaveSuccess false (withEditError None
       (withEditedContent (ContentItem.content content) (withIsEditing false st))),
     [], normal).
Proof.
  unfold seq at 1.
  destruct (handleEdit content st) as [[st1 e1] c1] eqn:E1.
  assert (e1 = [] /\ c1 = normal
          /\ st1 = withSaveSuccess false (withEditError None
                     (withEditedContent (ContentItem.content content)
                        (withIsEditing true st)))) as (-> & -> & ->)
    by (by injection E1 as <- <- <-).
  unfold seq. destruct (typing_run values
    (withSaveSuccess false (withEditError None
       (withEditedContent (ContentItem.content content) (withIsEditing true st)))))
    as [buffer ->].
  reflexivity.
Qed.

(** A click on the header does nothing while the card is being edited or
    deleted; otherwise it flips the expansion, and two clicks leave the card
    as it was. *)
Theorem headerClick_guarded st :
  (isDeleting st = true \/ isEditing st = true -> headerClick st = (st, [], normal))
  /\ (isDeleting st = false -> isEditing st = false ->
      isExpanded (headerClick st).1.1 = negb (isExpanded st)
      /\ (headerClick ;; headerClick)%handler st = (st, [], normal)).
Proof.
  destruct st as [e dg sc dd ds ed ec sv ss er]. unfold headerClick, seq. cbn.
  split.
  - intros [-> | ->]; [done|]. by rewrite andb_false_r.
  - intros -> ->. cbn. by rewrite negb_involutive.
Qed.

End ContentItemMore.

(** ** EnhancedNewThreadModal, continued *)

Module NewThreadModalMore.
Import NewThreadModal.

Lemma uniq_JS l : uniq l = JS.uniq l.
Proof. reflexivity. Qed.

(** The payload of a submission that goes through, field by field. *)
Lemma handleSubmit_shape props st :
  handleSubmit props st = []
  \/ exists d,
       handleSubmit props st = [d]
       /\ ThreadData.baseOf d
          = {| ThreadData.title := JS.trim (title st);
               ThreadData.content := JS.trim (content st);
               ThreadData.authorId := JS.lit "current-user-id";
               ThreadData.authorName := JS.lit "Current User";
               ThreadData.tags := tags st |}
       /\ match d with
          | ThreadData.classroomThread _ cid cname uid uname =>
              threadType props = classroom
              /\ cid = classroomId props
              /\ cname = default [] (classroomName props)
              /\ uid = selectedUnitId st
              /\ uname = unitNameFor props st
          | ThreadData.genericThread _ cat vis roles =>
              threadType props = generic
              /\ cat = selectedCategory st
              /\ vis = visibility st
              /\ roles = (if bool_decide (visibility st = restricted)
                          then Some [JS.lit "teacher"; JS.lit "admin"] else None)
          end.
Proof.
  unfold handleSubmit, unitNameFor.
  destruct (JS.truthy (JS.trim (title st))); [|by left].
  destruct (JS.truthy (JS.trim (content st))); [|by left].
  cbn [negb orb].
  destruct (threadType props); cbn.
  - destruct (JS.truthy (selectedUnitId st)); [|by left].
    right. eexists. split; [reflexivity|]. cbn. split; [done|].
    repeat split.
    + destruct (classroomName props) as [[|c n]|]; done.
    + destruct (findUnit _ _) as [[i [|c n]]|]; done.
  - destruct (JS.truthy (selectedCategory st)); [|by left].
    right. eexists. split; [reflexivity|]. by cbn.
Qed.

Lemma isValid_submits props st :
  isValid props st = true -> exists d, handleSubmit props st = [d].
Proof.
  unfold isValid, handleSubmit. rewrite !andb_true_iff. intros [[-> ->] Hs].
  cbn [negb orb]. destruct (threadType props).
  - change (bool_decide (classroom = classroom)) with true in *.
    change (bool_decide (classroom = generic)) with false in *.
    cbn [andb] in *. rewrite Hs. cbn. eauto.
  - change (bool_decide (generic = classroom)) with false in *.
    change (bool_decide (generic = generic)) with true in *.
    cbn [andb] in *. rewrite Hs. cbn. eauto.
Qed.

Lemma not_isValid_blocks props st :
  isValid props st = false -> handleSubmit props st = [].
Proof.
  unfold isValid, handleSubmit.
  destruct (JS.truthy (JS.trim (title st))); [|done].
  destruct (JS.truthy (JS.trim (content st))); [|done].
  cbn [andb negb orb]. destruct (threadType props).
  - change (bool_decide (classroom = classroom)) with true.
    change (bool_decide (classroom = generic)) with false.
    cbn [andb]. by intros ->.
  - change (bool_decide (generic = classroom)) with false.
    change (bool_decide (generic = generic)) with true.
    cbn [andb]. by intros ->.
Qed.

Section Tags.
Variable toLowerCase : JS.str -> JS.str.
Variable props : Props.

Lemma handleAddTag_tags key st :
  tags (handleAddTag toLowerCase key st)
  = if bool_decide (key = JS.lit "Enter") && JS.truthy (JS.trim (currentTag st))
    then if bool_decide (toLowerCase (JS.trim (currentTag st)) ∈ tags st)
         then tags st
         else tags st ++ [toLowerCase (JS.trim (currentTag st))]
    else tags st.
Proof.
  unfold handleAddTag. destruct (_ && _); [|done]. by case_bool_decide.
Qed.

Lemma generateAiSuggestion_tags st :
  tags (generateAiSuggestion toLowerCase st) = tags st
  \/ exists autoTags,
       tags (generateAiSuggestion toLowerCase st) = JS.uniq (tags st ++ autoTags)
       /\ autoTags ⊆ [JS.lit "equations"; JS.lit "graphing";
                      JS.lit "formulas"; JS.lit "proofs"].
Proof.
  unfold generateAiSuggestion. destruct (_ || _); [by left|]. right.
  eexists. split; [cbn; reflexivity|].
  intros t. rewrite !elem_of_app, !elem_of_cons.
  repeat match goal with
         | |- context [if ?b then _ else _] => destruct b
         end;
    rewrite ?list_elem_of_singleton, ?elem_of_nil; intuition auto.
Qed.

Lemma step_tags_NoDup st e :
  NoDup (tags st) -> NoDup (tags (step toLowerCase props st e).1).
Proof.
  intros Hst. destruct e; cbn; try done.
  - rewrite handleAddTag_tags. destruct (_ && _); [|done].
    case_bool_decide as Hin; [done|].
    apply NoDup_app. split; [done|]. split; [|apply NoDup_singleton].
    by intros x Hx ->%list_elem_of_singleton.
  - by apply StoreMore.filter_NoDup.
  - unfold aiSuggestionStart. by destruct (_ || _).
  - apply JSMore.uniq_NoDup.
Qed.

Lemma step_payload_tags st e :
  NoDup (tags st) ->
  Forall (fun d => NoDup (ThreadData.tags (ThreadData.baseOf d)))
         (step toLowerCase props st e).2.
Proof.
  intros Hst. destruct e; cbn; try constructor.
  destruct (handleSubmit_shape props st) as [->|(d & -> & Hb & _)]; [constructor|].
  constructor; [|constructor]. by rewrite Hb.
Qed.

Lemma run_tags_NoDup es : forall st,
  NoDup (tags st) ->
  NoDup (tags (run toLowerCase props st es).1)
  /\ Forall (fun d => NoDup (ThreadData.tags (ThreadData.baseOf d)))
       (run toLowerCase props st es).2.
Proof.
  induction es as [|e es IH]; intros st Hst; cbn [run].
  - by split.
  - pose proof (step_tags_NoDup st e Hst) as H1.
    pose proof (step_payload_tags st e Hst) as H2.
    destruct (step toLowerCase props st e) as [st1 out1]. cbn in H1, H2.
    destruct (IH st1 H1) as [H3 H4].
    destruct (run toLowerCase props st1 es) as [st2 out2]. cbn in *.
    split; [done|]. by apply Forall_app.
Qed.
End Tags.

(** With nothing in between, the two parts of [generateAiSuggestion]
    make up the whole. *)
Lemma generateAiSuggestion_parts (toLowerCase : JS.str -> JS.str) st :
  generateAiSuggestion toLowerCase st
  = if negb (JS.truthy (JS.trim (title st))) || negb (JS.truthy (JS.trim (content st)))
    then st
    else aiSuggestionFinish toLowerCase (content st) (aiSuggestionStart st).
Proof.
  unfold generateAiSuggestion, aiSuggestionFinish, aiSuggestionStart.
  by destruct (_ || _).
Qed.

(** A tag typed while a suggestion is pending comes before the tags the
    suggestion adds. *)
Example tag_during_suggestion_sample :
  tags (run JS.asciiLower Examples.genericProps initial
          [titleChange (JS.lit "Induction");
           contentChange (JS.lit "Is this proof right?");
           aiSuggestionClick;
           currentTagChange (JS.lit "mine");
           tagKeyDown (JS.lit "Enter");
           aiSuggestionTimer (JS.lit "Is this proof right?")]).1
  = [JS.lit "mine"; JS.lit "proofs"].
Proof. reflexivity. Qed.

(** The tags of the form never hold a tag twice, whatever happens to the
    form, in whatever order: typing tags, removing them, asking for
    suggestions, a suggestion arriving while the user goes on. The same holds
    for the tags of every payload handed to [onSubmit]. *)
Theorem tags_stay_distinct (toLowerCase : JS.str -> JS.str) props es :
  NoDup (tags (run toLowerCase props initial es).1)
  /\ Forall (fun d => NoDup (ThreadData.tags (ThreadData.baseOf d)))
       (run toLowerCase props initial es).2.
Proof. apply run_tags_NoDup. constructor. Qed.

(** Enter in the tag field, with something typed that is not blank: the
    tag is the trimmed text in lower case; it is in the tags afterwards,
    added at the end unless it was there; the field is emptied and nothing
    else changes. Any other key, or a blank field, changes nothing. *)
Theorem enter_adds_tag (toLowerCase : JS.str -> JS.str) st :
  JS.trim (currentTag st) <> [] ->
  toLowerCase (JS.trim (currentTag st))
    ∈ tags (handleAddTag toLowerCase (JS.lit "Enter") st)
  /\ tags (handleAddTag toLowerCase (JS.lit "Enter") st)
     = (if bool_decide (toLowerCase (JS.trim (currentTag st)) ∈ tags st)
        then tags st
        else tags st ++ [toLowerCase (JS.trim (currentTag st))])
  /\ handleAddTag toLowerCase (JS.lit "Enter") st
     = setCurrentTag []
         (setTags (tags (handleAddTag toLowerCase (JS.lit "Enter") st)) st)
  /\ forall key, key <> JS.lit "Enter" -> handleAddTag toLowerCase key st = st.
Proof.
  intros Hne. apply JSFacts.truthy_true in Hne.
  assert (tags (handleAddTag toLowerCase (JS.lit "Enter") st)
          = (if bool_decide (toLowerCase (JS.trim (currentTag st)) ∈ tags st)
             then tags st
             else tags st ++ [toLowerCase (JS.trim (currentTag st))])) as Ht.
  { rewrite handleAddTag_tags, Hne. by rewrite bool_decide_eq_true_2. }
  split; [|split; [exact Ht|split]].
  - rewrite Ht. case_bool_decide; [done|].
    apply elem_of_app. right. by apply list_elem_of_singleton.
  - rewrite Ht. unfold handleAddTag. rewrite Hne.
    rewrite bool_decide_eq_true_2 by done. cbn [andb].
    destruct st. by case_bool_decide.
  - intros key Hk. unfold handleAddTag. by rewrite bool_decide_eq_false_2.
Qed.

Lemma enter_adds_tag_witness :
  JS.lit "limits" ∈ tags (handleAddTag JS.asciiLower (JS.lit "Enter") Examples.typingTag)
  /\ currentTag (handleAddTag JS.asciiLower (JS.lit "Enter") Examples.typingTag) = [].
Proof.
  destruct (enter_adds_tag JS.asciiLower Examples.typingTag) as (H1 & _ & H3 & _).
  - vm_compute. discriminate.
  - split; [exact H1|]. rewrite H3. reflexivity.
Defined.

(** A blank tag field: Enter changes nothing. *)
Lemma blank_tag_ignored (toLowerCase : JS.str -> JS.str) key st :
  JS.trim (currentTag st) = [] -> handleAddTag toLowerCase key st = st.
Proof.
  intros He. unfold handleAddTag. rewrite He. by rewrite andb_false_r.
Qed.

(** Removing a tag: it is gone, every other tag stays, in the order it
    had, and nothing else changes. Removing a tag that was just added by
    Enter gives back the tags there were. *)
Theorem removeTag_removes (toLowerCase : JS.str -> JS.str) tag st :
  (tag ∉ tags (removeTag tag st))
  /\ (forall t, t <> tag -> (t ∈ tags (removeTag tag st) <-> t ∈ tags st))
  /\ (tags (removeTag tag st) `sublist_of` tags st)
  /\ removeTag tag st = setTags (tags (removeTag tag st)) st
  /\ (tag ∉ tags st -> tags (removeTag tag st) = tags st)
  /\ (JS.trim (currentTag st) <> [] ->
      toLowerCase (JS.trim (currentTag st)) ∉ tags st ->
      tags (removeTag (toLowerCase (JS.trim (currentTag st)))
              (handleAddTag toLowerCase (JS.lit "Enter") st))
      = tags st).
Proof.
  assert (forall k : list JS.str, tag ∉ k ->
            List.filter (fun t => bool_decide (t <> tag)) k = k) as Hid.
  { intros k Hk. apply StoreMore.filter_all, Forall_forall.
    intros t Ht. apply bool_decide_eq_true. by intros ->. }
  cbn. repeat split.
  - rewrite StoreMore.filter_elem, bool_decide_eq_true. tauto.
  - rewrite StoreMore.filter_elem. tauto.
  - rewrite StoreMore.filter_elem, bool_decide_eq_true. tauto.
  - apply StoreFacts.filter_sublist.
  - apply Hid.
  - intros Hne Hnew. apply JSFacts.truthy_true in Hne.
    rewrite handleAddTag_tags, Hne.
    rewrite bool_decide_eq_true_2 by done. cbn [andb].
    rewrite bool_decide_eq_false_2 by done.
    clear Hid. induction (tags st) as [|t k IH]; cbn.
    + by rewrite bool_decide_eq_false_2 by (by intros H; apply H).
    + apply not_elem_of_cons in Hnew as [Hhd Htl].
      rewrite bool_decide_eq_true_2 by done. by rewrite IH.
Qed.

(** [isValid] decides the submission: where it holds, [handleSubmit]
    calls [onSubmit] exactly once; where it does not, not at all. *)
Theorem isValid_decides_submission props st :
  (isValid props st = true <-> exists d, handleSubmit props st = [d])
  /\ (isValid props st = false <-> handleSubmit props st = []).
Proof.
  destruct (isValid props st) eqn:E.
  - destruct (isValid_submits props st E) as [d Hd]. rewrite Hd.
    split; split; try done. by exists d.
  - rewrite (not_isValid_blocks props st E).
    split; split; try done. by intros [d Hd].
Qed.

(** While the submit button is enabled, a submission goes through, and
    the content it carries is within the content limit of 2500. *)
Theorem enabled_submit_within_limit props st :
  submitDisabled props st = false ->
  exists d,
    handleSubmit props st = [d]
    /\ wellFormed d
    /\ (JS.length (ThreadData.content (ThreadData.baseOf d)) <= 2500)%nat.
Proof.
  unfold submitDisabled, isContentOverLimit, CONTENT_LIMIT.
  intros [Hv Hlen]%orb_false_iff. apply negb_false_iff in Hv.
  apply Nat.ltb_ge in Hlen.
  destruct (isValid_submits props st Hv) as [d Hd].
  destruct (NewThreadModalSpec.handleSubmit_cases props st)
    as [E|(d' & E & Hw & _ & _ & Hc & _)]; rewrite Hd in E; [discriminate|].
  injection E as <-. exists d. split; [done|]. split; [done|].
  rewrite Hc. pose proof (JSFacts.trim_length (content st)). lia.
Qed.

Lemma enabled_submit_within_limit_witness :
  exists d,
    handleSubmit Examples.genericProps Examples.genericForm = [d]
    /\ wellFormed d
    /\ (JS.length (ThreadData.content (ThreadData.baseOf d)) <= 2500)%nat.
Proof.
  apply (enabled_submit_within_limit Examples.genericProps Examples.genericForm).
  reflexivity.
Defined.

Lemma unitNameFor_found props st :
  (exists u, u ∈ units props /\ unit_id u = selectedUnitId st
             /\ unitNameFor props st = unit_name u)
  \/ ((forall u, u ∈ units props -> unit_id u <> selectedUnitId st)
      /\ unitNameFor props st = []).
Proof.
  unfold unitNameFor, findUnit.
  destruct (List.find _ _) as [u|] eqn:E.
  - left. apply find_some in E as [Hin Hid]. exists u.
    split; [by apply list_elem_of_In|]. split; [|done].
    by apply bool_decide_eq_true in Hid.
  - right. split; [|done]. intros u Hu%list_elem_of_In.
    pose proof (find_none _ _ E u Hu) as Hid.
    by apply bool_decide_eq_false in Hid.
Qed.

(** What a payload carries. Its title and content are the trimmed texts
    of the form, so neither starts or ends with white space; its tags are
    those of the form and its author the fixed current user. A classroom
    payload carries the classroom id of the props, the selected unit id, and
    as unit name the name of a unit of the props with that id (the empty
    string if there is none). A generic payload carries the selected
    category and the visibility, and the roles teacher and admin exactly when
    the visibility is restricted. *)
Theorem payload_carries_form props st :
  Forall (fun d =>
    ThreadData.baseOf d
    = {| ThreadData.title := JS.trim (title st);
         ThreadData.content := JS.trim (content st);
         ThreadData.authorId := JS.lit "current-user-id";
         ThreadData.authorName := JS.lit "Current User";
         ThreadData.tags := tags st |}
    /\ JS.startsWithWs (ThreadData.title (ThreadData.baseOf d)) = false
    /\ JS.endsWithWs (ThreadData.title (ThreadData.baseOf d)) = false
    /\ JS.startsWithWs (ThreadData.content (ThreadData.baseOf d)) = false
    /\ JS.endsWithWs (ThreadData.content (ThreadData.baseOf d)) = false
    /\ match d with
       | ThreadData.classroomThread _ cid cname uid uname =>
           cid = classroomId props
           /\ cname = default [] (classroomName props)
           /\ uid = selectedUnitId st
           /\ ((exists u, u ∈ units props /\ unit_id u = uid /\ uname = unit_name u)
               \/ ((forall u, u ∈ units props -> unit_id u <> uid) /\ uname = []))
       | ThreadData.genericThread _ cat vis roles =>
           cat = selectedCategory st
           /\ vis = visibility st
           /\ (roles = Some [JS.lit "teacher"; JS.lit "admin"] <-> vis = restricted)
           /\ (roles = None <-> vis = public)
       end)
    (handleSubmit props st).
Proof.
  destruct (handleSubmit_shape props st) as [->|(d & -> & Hb & Hd)]; [constructor|].
  constructor; [|constructor]. split; [exact Hb|]. rewrite Hb. cbn.
  destruct (JSMore.trim_clean (title st)) as [-> ->].
  destruct (JSMore.trim_clean (content st)) as [-> ->].
  repeat (split; [reflexivity|]).
  destruct d as [b cid cname uid uname|b cat vis roles].
  - destruct Hd as (_ & -> & -> & -> & ->). repeat (split; [reflexivity|]).
    apply unitNameFor_found.
  - destruct Hd as (_ & -> & -> & ->). repeat (split; [reflexivity|]).
    destruct (visibility st); cbn; split; split; done.
Qed.

(** The word count is zero exactly for a text that is blank (empty once
    trimmed), and never more than the number of characters. *)
Theorem countWords_blank (text : JS.str) :
  (countWords text = 0%nat <-> JS.trim text = [])
  /\ (countWords text <= JS.length text)%nat.
Proof.
  change (countWords text) with (JS.wordsOf (JS.split_ws false [] (JS.trim text))).
  split; [split|].
  - intros H0. destruct (JS.trim text) as [|c s] eqn:E; [done|].
    destruct (JSMore.trim_clean text) as [Hs _]. rewrite E in Hs. cbn in Hs.
    cbn [JS.split_ws] in H0. rewrite Hs in H0. cbn [app] in H0.
    pose proof (JSMore.split_ws_nonempty s [c]) as H1.
    specialize (H1 ltac:(done)). lia.
  - by intros ->.
  - pose proof (JSMore.split_ws_bound (JS.trim text) false []) as H.
    rewrite bool_decide_eq_true_2 in H by done.
    pose proof (JSFacts.trim_length text). lia.
Qed.

(** Asking for suggestions leaves the texts and selections of the form
    alone; every tag there was is still there (at its place, if no tag was
    there twice); a tag that is new is one of equations, graphing, formulas,
    proofs. With the button enabled, the flag is off again at the end and a
    content that mentions "proof" gets the tag proofs. With a blank title or
    content nothing changes at all. *)
Theorem aiSuggestion_keeps_form (toLowerCase : JS.str -> JS.str) st :
  title (generateAiSuggestion toLowerCase st) = title st
  /\ content (generateAiSuggestion toLowerCase st) = content st
  /\ selectedUnitId (generateAiSuggestion toLowerCase st) = selectedUnitId st
  /\ selectedCategory (generateAiSuggestion toLowerCase st) = selectedCategory st
  /\ visibility (generateAiSuggestion toLowerCase st) = visibility st
  /\ currentTag (generateAiSuggestion toLowerCase st) = currentTag st
  /\ Forall (fun t => t ∈ tags (generateAiSuggestion toLowerCase st)) (tags st)
  /\ Forall (fun t => t ∈ tags st
                      \/ t ∈ [JS.lit "equations"; JS.lit "graphing";
                              JS.lit "formulas"; JS.lit "proofs"])
       (tags (generateAiSuggestion toLowerCase st))
  /\ (NoDup (tags st) ->
      tags st `prefix_of` tags (generateAiSuggestion toLowerCase st))
  /\ (aiSuggestionDisabled st = false ->
      isGeneratingAiSuggestion (generateAiSuggestion toLowerCase st) = false
      /\ (JS.includes (toLowerCase (content st)) (JS.lit "proof") = true ->
          JS.lit "proofs" ∈ tags (generateAiSuggestion toLowerCase st)))
  /\ (JS.trim (title st) = [] \/ JS.trim (content st) = [] ->
      generateAiSuggestion toLowerCase st = st).
Proof.
  repeat (split; [unfold generateAiSuggestion; by destruct (_ || _)|]).
  split; [|split; [|split; [|split]]].
  - apply Forall_forall. intros t Ht.
    destruct (generateAiSuggestion_tags toLowerCase st) as [->|(a & -> & _)]; [done|].
    apply JSMore.uniq_elem, elem_of_app. by left.
  - apply Forall_forall. intros t Ht.
    destruct (generateAiSuggestion_tags toLowerCase st) as [E|(a & E & Ha)];
      rewrite E in Ht; [by left|].
    apply JSMore.uniq_elem, elem_of_app in Ht as [?|?]; [by left|right; by apply Ha].
  - intros Hn.
    destruct (generateAiSuggestion_tags toLowerCase st) as [->|(a & -> & _)]; [done|].
    by apply JSMore.uniq_app_prefix.
  - unfold aiSuggestionDisabled, generateAiSuggestion.
    intros [-> Hg]%orb_false_iff. split; [done|].
    intros Hp. cbn [tags setTags setIsGeneratingAiSuggestion]. rewrite Hp.
    apply JSMore.uniq_elem.
    rewrite !elem_of_app. right. right. right. right.
    by apply list_elem_of_singleton.
  - intros H. unfold generateAiSuggestion.
    destruct H as [-> | ->]; [done|]. by rewrite orb_true_r.
Qed.

End NewThreadModalMore.
